(** * hj.MultiSpaceVideo: the point-cloud ring buffer and its PLY export

    A shallow embedding of the pure helpers of [src/app/point/utils/math.ts],
    of the two PLY exporters of [src/app/point/utils/plyExporter.ts], of the
    frame reordering of the vertex shader and of the capture step of
    [src/app/point/page.tsx].

    Conventions.  A JavaScript [number] that holds an index, a size or a
    count is a [Z] (the doubles of the source are exact on integers below
    2^53); the operator [%] is the truncated remainder [Z.rem].  Coordinates
    are rationals [Q]: [(size - 1) / 2] and the differences with it are
    exact in the source as well; the rounding of the product with [spacing]
    is not modelled.  A [Uint8Array] is a [list byte]; reading outside of it
    gives [None] (the [undefined] of the source) and writing outside of it
    does nothing. *)

From Stdlib Require Import ZArith QArith Lia Strings.String Strings.Ascii Strings.Byte.
From Stdlib Require Import DecimalString Qminmax Lqa.
From stdpp Require Import base numbers list.

Local Open Scope Z_scope.

(** ** JavaScript primitives *)

Module JS.

(** [a % b] on integers: the sign follows the dividend.  For [b = 0] the
    source gives [NaN], which no integer models; the functions below are
    only stated for a non-zero divisor. *)
Definition rem (a b : Z) : Z := Z.rem a b.

(** The iteration space of [for (let i = 0; i < n; i++)]. *)
Definition range (n : Z) : list Z := seqZ 0 n.

(** [Math.floor(a / b)] on integers: the floor of the exact quotient. *)
Definition floorDiv (a b : Z) : Z := a / b.

End JS.

(** ** utils/math.ts *)

Module MathUtils.

Definition calcHalf (size : Z) : Q := ((inject_Z size - 1) / 2)%Q.

Definition calcActualFrameIndex (logicalFrame writeIndex totalFrames : Z) : Z :=
  JS.rem (writeIndex + logicalFrame) totalFrames.

Definition calcZPosition (frameIndex totalFrames : Z) (spacing : Q) : Q :=
  let zHalf := calcHalf totalFrames in
  ((inject_Z frameIndex - zHalf) * spacing)%Q.

(** The optional fourth parameter [height?] is an [option]. *)
Definition calcColorDataIndex
    (frameIndex pixelIndex width : Z) (height : option Z) : Z :=
  match height with
  | None => (frameIndex * width + pixelIndex) * 4
  | Some height =>
      let x := JS.rem pixelIndex width in
      let y := JS.floorDiv pixelIndex width in
      ((frameIndex * height + y) * width + x) * 4
  end.

Definition calcTotalPoints (width height frames : Z) : Z :=
  width * height * frames.

Definition calcPixelIndex (x y width : Z) : Z := y * width + x.

(** [Math.max(min, Math.min(max, value))] *)
Definition clamp (value min max : Q) : Q := Qmax min (Qmin max value).

Record Point3D := { px : Q; py : Q; pz : Q }.

Definition calcPoint3D (x y f width height frames : Z) : Point3D :=
  let xHalf := calcHalf width in
  let yHalf := calcHalf height in
  let zHalf := calcHalf frames in
  {| px := (inject_Z x - xHalf)%Q;
     py := (yHalf - inject_Z y)%Q;
     pz := (inject_Z f - zHalf)%Q |}.

End MathUtils.

(** ** shaders: the frame reordering of the vertex shader *)

Module Shader.

(** GLSL [mod(x, y) = x - y * floor(x / y)]; the attribute and the uniforms
    hold integers. *)
Definition glslMod (x y : Z) : Z := x - y * (x / y).

(** [float adjustedFrame = mod(aFrameIndex - uWriteIndex + uTotalFrames, uTotalFrames);] *)
Definition adjustedFrame (aFrameIndex uWriteIndex uTotalFrames : Z) : Z :=
  glslMod (aFrameIndex - uWriteIndex + uTotalFrames) uTotalFrames.

(** The texture coordinates [(texU, texV)] at which [main] samples the
    colour of a point. *)
Definition texCoord (aFrameIndex aPixelIndex uTexWidth uTexHeight uTotalFrames : Z)
  : Q * Q :=
  let pixelX := glslMod aPixelIndex uTexWidth in
  let pixelY := aPixelIndex / uTexWidth in
  let texU := ((inject_Z pixelX + (1 # 2)) / inject_Z uTexWidth)%Q in
  let texV := ((inject_Z aFrameIndex * inject_Z uTexHeight + inject_Z pixelY + (1 # 2))
               / (inject_Z uTexHeight * inject_Z uTotalFrames))%Q in
  (texU, texV).

End Shader.

(** ** Typed arrays, DataView and strings of the platform *)

Module Platform.

(** [a[i]] on a [Uint8Array]: [None] is [undefined]. *)
Definition u8get (a : list byte) (i : Z) : option byte :=
  if 0 <=? i then a !! Z.to_nat i else None.

(** [a[i] = v] on a [Uint8Array]: ignored outside of the array. *)
Definition u8set (a : list byte) (i : Z) (v : byte) : list byte :=
  if 0 <=? i then <[Z.to_nat i := v]> a else a.

(** The conversion of a stored value to [uint8]: [undefined] becomes 0. *)
Definition toUint8 (v : option byte) : byte := default x00 v.

(** [new ArrayBuffer(n)] and [new Uint8Array(n)]: zero-filled, and a
    [RangeError] ([None]) for a negative length. *)
Definition newBuffer (n : Z) : option (list byte) :=
  if 0 <=? n then Some (replicate (Z.to_nat n) x00) else None.

(** Writing [bs] at [offset]: the bounds check of [DataView.set*] and of
    [TypedArray.prototype.set], a [RangeError] being [None]. *)
Definition setBytes (buf : list byte) (offset : Z) (bs : list byte)
  : option (list byte) :=
  if (0 <=? offset) && (offset + Z.of_nat (length bs) <=? Z.of_nat (length buf))
  then Some (list_inserts (Z.to_nat offset) bs buf)
  else None.

Definition setUint8 (buf : list byte) (offset : Z) (v : byte)
  : option (list byte) := setBytes buf offset [v].

(** The line feed of ["\n"]. *)
Definition LF : string := String (ascii_of_nat 10) EmptyString.

(** [`${n}`] for an integer [n]. *)
Definition showInt (n : Z) : string := NilZero.string_of_int (Z.to_int n).

(** [`${v}`] for an element read from a [Uint8Array]. *)
Definition showU8 (v : option byte) : string :=
  match v with
  | Some b => showInt (Z.of_N (Byte.to_N b))
  | None => "undefined"
  end.

(** [new TextEncoder().encode(s)]: the strings encoded here hold ASCII
    characters only, one byte each. *)
Definition textEncode (s : string) : list byte := list_byte_of_string s.

(** The numbers an element of a [Float32Array] holds unrounded: the finite
    binary32 values, [m * 2^e] with [|m| < 2^24] and [-149 <= e <= 104]. *)
Definition float32Exact (v : Q) : Prop :=
  exists m e : Z,
    Z.abs m < 2 ^ 24 /\ -149 <= e <= 104 /\ (v == inject_Z m * 2 ^ e)%Q.

(** [a.join(sep)] *)
Definition join (sep : string) (a : list string) : string := String.concat sep a.

End Platform.

(** ** utils/plyExporter.ts *)

Module Ply.

Import MathUtils Platform.

Record PLYExportData := {
  colorData : list byte;
  width : Z;
  height : Z;
  frames : Z;
  spacing : Q;
  writeIndex : Z
}.

(** [PLY_EXPORT_CONFIG.BYTES_PER_POINT] of [config.ts]. *)
Definition BYTES_PER_POINT : Z := 15.

Definition createPLYHeaderASCII (totalPoints : Z) : string :=
  (join LF [
    "ply";
    "format ascii 1.0";
    "element vertex " ++ showInt totalPoints;
    "property float x";
    "property float y";
    "property float z";
    "property uchar red";
    "property uchar green";
    "property uchar blue";
    "end_header"
  ] ++ LF)%string.

Definition createPLYHeaderBinary (totalPoints : Z) : string :=
  (join LF [
    "ply";
    "format binary_little_endian 1.0";
    "element vertex " ++ showInt totalPoints;
    "property float x";
    "property float y";
    "property float z";
    "property uchar red";
    "property uchar green";
    "property uchar blue";
    "end_header"
  ] ++ LF)%string.

Section Exporters.

(** The two conversions of a double the exporters leave to the platform:
    the text of [`${v}`] and the four little-endian bytes that
    [DataView.setFloat32(offset, v, true)] stores. *)
Variable numberToString : Q -> string.
Variable float32LE : Q -> list byte.

Definition setFloat32 (buf : list byte) (offset : Z) (v : Q)
  : option (list byte) := setBytes buf offset (float32LE v).

(** The loop nest of [createPLYDataASCII]; the accumulator is [lines]. *)
Definition asciiLines (data : PLYExportData) : list string :=
  let colorData := colorData data in
  let width := width data in
  let height := height data in
  let frames := frames data in
  let spacing := spacing data in
  let writeIndex := writeIndex data in
  let pixelsPerFrame := width * height in
  let xHalf := calcHalf width in
  let yHalf := calcHalf height in
  foldl (fun lines logicalFrame =>
    let actualFrame := calcActualFrameIndex logicalFrame writeIndex frames in
    let zPos := calcZPosition logicalFrame frames spacing in
    foldl (fun lines y =>
      let yPos := (yHalf - inject_Z y)%Q in
      foldl (fun lines x =>
        let xPos := (inject_Z x - xHalf)%Q in
        let pixelIdx := calcPixelIndex x y width in
        let colorIdx := calcColorDataIndex actualFrame pixelIdx pixelsPerFrame None in
        let r := u8get colorData colorIdx in
        let g := u8get colorData (colorIdx + 1) in
        let b := u8get colorData (colorIdx + 2) in
        lines ++ [(numberToString xPos ++ " " ++ numberToString yPos ++ " "
                   ++ numberToString zPos ++ " " ++ showU8 r ++ " "
                   ++ showU8 g ++ " " ++ showU8 b)%string])
        lines (JS.range width))
      lines (JS.range height))
    [] (JS.range frames).

Definition createPLYDataASCII (data : PLYExportData) : string :=
  let totalPoints := calcTotalPoints (width data) (height data) (frames data) in
  let header := createPLYHeaderASCII totalPoints in
  (header ++ join LF (asciiLines data))%string.

(** The loop nest of [createPLYDataBinary]; the state is the data buffer
    and [offset], and an exception of a [DataView] write ends it. *)
Definition binaryData (data : PLYExportData) : option (list byte * Z) :=
  let colorData := colorData data in
  let width := width data in
  let height := height data in
  let frames := frames data in
  let spacing := spacing data in
  let writeIndex := writeIndex data in
  let pixelsPerFrame := width * height in
  let totalPoints := calcTotalPoints width height frames in
  let xHalf := calcHalf width in
  let yHalf := calcHalf height in
  dataBuffer ← newBuffer (totalPoints * BYTES_PER_POINT);
  foldl (fun st logicalFrame =>
    let actualFrame := calcActualFrameIndex logicalFrame writeIndex frames in
    let zPos := calcZPosition logicalFrame frames spacing in
    foldl (fun st y =>
      let yPos := (yHalf - inject_Z y)%Q in
      foldl (fun st x =>
        '(buf, offset) ← st;
        let xPos := (inject_Z x - xHalf)%Q in
        let pixelIdx := calcPixelIndex x y width in
        let colorIdx := calcColorDataIndex actualFrame pixelIdx pixelsPerFrame None in
        buf ← setFloat32 buf offset xPos;
        let offset := offset + 4 in
        buf ← setFloat32 buf offset yPos;
        let offset := offset + 4 in
        buf ← setFloat32 buf offset zPos;
        let offset := offset + 4 in
        buf ← setUint8 buf offset (toUint8 (u8get colorData colorIdx));
        let offset := offset + 1 in
        buf ← setUint8 buf offset (toUint8 (u8get colorData (colorIdx + 1)));
        let offset := offset + 1 in
        buf ← setUint8 buf offset (toUint8 (u8get colorData (colorIdx + 2)));
        let offset := offset + 1 in
        Some (buf, offset))
        st (JS.range width))
      st (JS.range height))
    (Some (dataBuffer, 0)) (JS.range frames).

Definition createPLYDataBinary (data : PLYExportData) : option (list byte) :=
  let totalPoints := calcTotalPoints (width data) (height data) (frames data) in
  let header := createPLYHeaderBinary totalPoints in
  let headerBytes := textEncode header in
  '(dataBuffer, _) ← binaryData data;
  combined ← newBuffer (Z.of_nat (length headerBytes) + Z.of_nat (length dataBuffer));
  combined ← setBytes combined 0 headerBytes;
  combined ← setBytes combined (Z.of_nat (length headerBytes)) dataBuffer;
  Some combined.

(** *** The exported points, one by one

    What the loop nests compute for the pixel [(x, y)] of the logical frame
    [logicalFrame]: the coordinates and the three colour reads. *)
Record RawPoint := {
  xPos : Q;
  yPos : Q;
  zPos : Q;
  red : option byte;
  green : option byte;
  blue : option byte
}.

Definition pointOf (data : PLYExportData) (logicalFrame y x : Z) : RawPoint :=
  let pixelsPerFrame := width data * height data in
  let actualFrame :=
    calcActualFrameIndex logicalFrame (writeIndex data) (frames data) in
  let pixelIdx := calcPixelIndex x y (width data) in
  let colorIdx := calcColorDataIndex actualFrame pixelIdx pixelsPerFrame None in
  {| xPos := (inject_Z x - calcHalf (width data))%Q;
     yPos := (calcHalf (height data) - inject_Z y)%Q;
     zPos := calcZPosition logicalFrame (frames data) (spacing data);
     red := u8get (colorData data) colorIdx;
     green := u8get (colorData data) (colorIdx + 1);
     blue := u8get (colorData data) (colorIdx + 2) |}.

(** The text line ["x y z r g b"] of a point. *)
Definition formatLine (p : RawPoint) : string :=
  (numberToString (xPos p) ++ " " ++ numberToString (yPos p) ++ " "
   ++ numberToString (zPos p) ++ " " ++ showU8 (red p) ++ " "
   ++ showU8 (green p) ++ " " ++ showU8 (blue p))%string.

(** The binary record of a point: 3 x float32, 3 x uint8. *)
Definition encodePoint (p : RawPoint) : list byte :=
  float32LE (xPos p) ++ float32LE (yPos p) ++ float32LE (zPos p)
  ++ [toUint8 (red p); toUint8 (green p); toUint8 (blue p)].

(** One pass of the innermost loop body of [createPLYDataBinary]. *)
Definition writePoint (p : RawPoint) (st : list byte * Z)
  : option (list byte * Z) :=
  let '(buf, offset) := st in
  buf ← setFloat32 buf offset (xPos p);
  let offset := offset + 4 in
  buf ← setFloat32 buf offset (yPos p);
  let offset := offset + 4 in
  buf ← setFloat32 buf offset (zPos p);
  let offset := offset + 4 in
  buf ← setUint8 buf offset (toUint8 (red p));
  let offset := offset + 1 in
  buf ← setUint8 buf offset (toUint8 (green p));
  let offset := offset + 1 in
  buf ← setUint8 buf offset (toUint8 (blue p));
  let offset := offset + 1 in
  Some (buf, offset).

End Exporters.

(** The inputs the exporters are written for. *)
Definition validInput (data : PLYExportData) : Prop :=
  0 < width data /\ 0 < height data /\ 0 < frames data
  /\ Z.of_nat (length (colorData data))
     = width data * height data * frames data * 4
  /\ 0 <= writeIndex data < frames data.

End Ply.

(** ** Loop nests as lists *)

Module Loops.

(** The values [g f y x] in the order in which the three nested [for] loops
    over [frames], [height] and [width] visit them. *)
Definition grid {A} (frames height width : Z) (g : Z -> Z -> Z -> A) : list A :=
  concat ((fun f =>
    concat ((fun y => g f y <$> JS.range width) <$> JS.range height))
    <$> JS.range frames).

End Loops.

(** ** page.tsx: initialisation and the capture step *)

Module Page.

Import MathUtils Platform.

(** The sampling settings of the component: the state variables [targetW],
    [targetH] and [targetFrames], for the integers of either sign that the
    number inputs parse; a text from which [parseInt] reads no number gives
    [NaN], which is not among them. *)
Record Sampling := {
  targetW : Z;
  targetH : Z;
  targetFrames : Z
}.

(** The parts of the page that the functions below only read: whether
    [sceneRef], [hiddenCanvasRef] and [videoRef] are set, and whether
    [getContext("2d")] gives a context. *)
Record Env := {
  sceneReady : bool;
  hiddenCanvasReady : bool;
  videoReady : bool;
  contextAvailable : bool
}.

(** The texts given to [setStatus]. *)
Inductive Status :=
  | StatusIdle
  | StatusNotInitialised      (* Three.js is not initialised yet *)
  | StatusInvalidTarget       (* target resolution / frame count is not valid *)
  | StatusNoContext           (* the canvas context could not be created *)
  | StatusStarted
  | StatusStartFailed
  | StatusLive (frames : Z).

(** The typed arrays the page creates with [new]. *)
Inductive ArrayKind := Float32Array | Uint8Array.

(** The attributes of the geometry of the point cloud. *)
Record Geometry := {
  positions : list Q;
  frameIndices : list Z;
  pixelIndices : list Z
}.

(** The mutable references of the component.  [colorTextureRef] says
    whether the texture is there and that [needsUpdate] has been set on it
    (the renderer, which consumes the flag, is not part of the model), [materialRef] the uniform
    [uWriteIndex] of the material; [allocations] records, in order, every
    typed array created so far with its length. *)
Record State := {
  ctxRef : bool;
  capturingRef : bool;
  colorDataRef : option (list byte);
  colorTextureRef : option bool;
  materialRef : option Z;
  pointsRef : option Geometry;
  writeIndexRef : Z;
  frameCountRef : Z;
  status : Status;
  allocations : list (ArrayKind * Z)
}.

Definition setStatus (msg : Status) (r : State) : State :=
  {| ctxRef := ctxRef r; capturingRef := capturingRef r;
     colorDataRef := colorDataRef r; colorTextureRef := colorTextureRef r;
     materialRef := materialRef r; pointsRef := pointsRef r;
     writeIndexRef := writeIndexRef r; frameCountRef := frameCountRef r;
     status := msg; allocations := allocations r |}.

Definition setCapturing (b : bool) (r : State) : State :=
  {| ctxRef := ctxRef r; capturingRef := b;
     colorDataRef := colorDataRef r; colorTextureRef := colorTextureRef r;
     materialRef := materialRef r; pointsRef := pointsRef r;
     writeIndexRef := writeIndexRef r; frameCountRef := frameCountRef r;
     status := status r; allocations := allocations r |}.

(** [new Kind(n)] *)
Definition allocate (kind : ArrayKind) (n : Z) (r : State) : State :=
  {| ctxRef := ctxRef r; capturingRef := capturingRef r;
     colorDataRef := colorDataRef r; colorTextureRef := colorTextureRef r;
     materialRef := materialRef r; pointsRef := pointsRef r;
     writeIndexRef := writeIndexRef r; frameCountRef := frameCountRef r;
     status := status r; allocations := allocations r ++ [(kind, n)] |}.

(** [a[i] = v] on a typed array of any element type. *)
Definition taSet {A} (a : list A) (i : Z) (v : A) : list A :=
  if 0 <=? i then <[Z.to_nat i := v]> a else a.

Definition disposePoints (env : Env) (r : State) : State :=
  {| ctxRef := ctxRef r; capturingRef := capturingRef r;
     colorDataRef := None; colorTextureRef := None;
     materialRef := None;
     pointsRef := if sceneReady env then None else pointsRef r;
     writeIndexRef := 0; frameCountRef := frameCountRef r;
     status := status r; allocations := allocations r |}.

(** [stopCapture({ skipState: true, skipStatus: true })], as the [catch] of
    [startCapture] calls it: the capture flag is lowered and the drawing
    context dropped. *)
Definition stopCapture (r : State) : State :=
  {| ctxRef := false; capturingRef := false;
     colorDataRef := colorDataRef r; colorTextureRef := colorTextureRef r;
     materialRef := materialRef r; pointsRef := pointsRef r;
     writeIndexRef := writeIndexRef r; frameCountRef := frameCountRef r;
     status := status r; allocations := allocations r |}.

Section Component.

Variable sampling : Sampling.
Variable env : Env.

Let targetW := targetW sampling.
Let targetH := targetH sampling.
Let targetFrames := targetFrames sampling.

(** The three attribute arrays after the fill loops of [initLivePoints].
    The elements of the [Float32Array]s are kept as the numbers the loops
    store: half-integers and indices, which such an array holds unrounded
    as long as they are [float32Exact]. *)
Definition fillGeometry (totalPoints : Z) : Geometry :=
  let positions := replicate (Z.to_nat (totalPoints * 3)) 0%Q in
  let frameIndices := replicate (Z.to_nat totalPoints) 0 in
  let pixelIndices := replicate (Z.to_nat totalPoints) 0 in
  let xHalf := ((inject_Z targetW - 1) / 2)%Q in
  let yHalf := ((inject_Z targetH - 1) / 2)%Q in
  let zHalf := ((inject_Z targetFrames - 1) / 2)%Q in
  let '(positions, frameIndices, pixelIndices, _) :=
    foldl (fun st f =>
      let zVal := (inject_Z f - zHalf)%Q in
      foldl (fun st y =>
        let yVal := (yHalf - inject_Z y)%Q in
        foldl (fun st x =>
          let '(positions, frameIndices, pixelIndices, i) := st in
          let idx := i * 3 in
          let positions := taSet positions idx (inject_Z x - xHalf)%Q in
          let positions := taSet positions (idx + 1) yVal in
          let positions := taSet positions (idx + 2) zVal in
          let frameIndices := taSet frameIndices i f in
          let pixelIndices := taSet pixelIndices i (y * targetW + x) in
          (positions, frameIndices, pixelIndices, i + 1))
          st (JS.range targetW))
        st (JS.range targetH))
      (positions, frameIndices, pixelIndices, 0) (JS.range targetFrames) in
  {| positions := positions; frameIndices := frameIndices;
     pixelIndices := pixelIndices |}.

Definition initLivePoints (r : State) : bool * State :=
  if negb (sceneReady env) || negb (hiddenCanvasReady env) then
    (false, setStatus StatusNotInitialised r)
  else
    let pixelsPerFrame := targetW * targetH in
    let totalPoints := calcTotalPoints targetW targetH targetFrames in
    if totalPoints <=? 0 then
      (false, setStatus StatusInvalidTarget r)
    else
      let r := allocate Float32Array (totalPoints * 3) r in
      let r := allocate Float32Array totalPoints r in
      let r := allocate Float32Array totalPoints r in
      let geometry := fillGeometry totalPoints in
      if negb (contextAvailable env) then
        (false, setStatus StatusNoContext r)
      else
        let r := disposePoints env r in
        let r := allocate Uint8Array (pixelsPerFrame * targetFrames * 4) r in
        let colorData :=
          replicate (Z.to_nat (pixelsPerFrame * targetFrames * 4)) x00 in
        (true,
         {| ctxRef := true; capturingRef := capturingRef r;
            colorDataRef := Some colorData; colorTextureRef := Some true;
            materialRef := Some 0; pointsRef := Some geometry;
            writeIndexRef := 0; frameCountRef := 0;
            status := status r; allocations := allocations r |}).

(** One call of [processFrame]; [data] is what [getImageData] returns for
    the frame drawn on the hidden canvas.  The operator [%] on a zero
    [targetFrames] gives [NaN] in the source; [initLivePoints] never
    succeeds with it. *)
Definition processFrame (data : list byte) (r : State) : State :=
  if negb (capturingRef r) then r
  else
    match videoReady env, ctxRef r, colorDataRef r,
          colorTextureRef r, materialRef r with
    | true, true, Some colorData, Some _, Some _ =>
        let pixelsPerFrame := targetW * targetH in
        let writeIndex := writeIndexRef r in
        let rowOffset := writeIndex * pixelsPerFrame * 4 in
        let colorData :=
          foldl (fun colorData p =>
            let srcBase := p * 4 in
            let dstBase := rowOffset + p * 4 in
            let colorData := u8set colorData dstBase (toUint8 (u8get data srcBase)) in
            let colorData :=
              u8set colorData (dstBase + 1) (toUint8 (u8get data (srcBase + 1))) in
            let colorData :=
              u8set colorData (dstBase + 2) (toUint8 (u8get data (srcBase + 2))) in
            u8set colorData (dstBase + 3) xff)
            colorData (JS.range pixelsPerFrame) in
        let writeIndex' := JS.rem (writeIndex + 1) targetFrames in
        let frameCount := frameCountRef r + 1 in
        {| ctxRef := ctxRef r; capturingRef := capturingRef r;
           colorDataRef := Some colorData; colorTextureRef := Some true;
           materialRef := Some writeIndex'; pointsRef := pointsRef r;
           writeIndexRef := writeIndex'; frameCountRef := frameCount;
           status := if JS.rem frameCount 30 =? 0 then StatusLive frameCount
                     else status r;
           allocations := allocations r |}
    | _, _, _, _, _ => r
    end.

(** [startCapture], once the camera stream plays: the point cloud is
    initialised and the capture flag raised; a missing video element or a
    failed initialisation ends in the [catch] branch, which sets the status
    and calls [stopCapture]. *)
Definition startCapture (r : State) : State :=
  if capturingRef r then r
  else if negb (videoReady env) then stopCapture (setStatus StatusStartFailed r)
  else
    let '(ok, r) := initLivePoints r in
    if ok then setStatus StatusStarted (setCapturing true r)
    else stopCapture (setStatus StatusStartFailed r).

(** The page after [startCapture] and one [processFrame] per captured frame. *)
Definition run (r0 : State) (captured : list (list byte)) : State :=
  foldl (fun r data => processFrame data r) (startCapture r0) captured.

End Component.

(** The component when it mounts. *)
Definition mounted : State :=
  {| ctxRef := false; capturingRef := false; colorDataRef := None;
     colorTextureRef := None; materialRef := None; pointsRef := None;
     writeIndexRef := 0; frameCountRef := 0; status := StatusIdle;
     allocations := [] |}.

(** A page that captures into [colorData]: the flag is up and every
    reference that [processFrame] needs is set. *)
Definition capturing (r : State) (colorData : list byte) : Prop :=
  capturingRef r = true /\ ctxRef r = true
  /\ colorDataRef r = Some colorData
  /\ is_Some (colorTextureRef r) /\ is_Some (materialRef r).

(** A browser in which every element and context is there. *)
Definition readyEnv : Env :=
  {| sceneReady := true; hiddenCanvasReady := true; videoReady := true;
     contextAvailable := true |}.

(** *** The ring buffer, slot by slot *)

(** The bytes [processFrame] stores for a captured frame: R, G, B of every
    pixel and an opaque alpha. *)
Definition storedFrame (pixelsPerFrame : Z) (data : list byte) : list byte :=
  concat ((fun p => [toUint8 (u8get data (p * 4));
                     toUint8 (u8get data (p * 4 + 1));
                     toUint8 (u8get data (p * 4 + 2));
                     xff]) <$> JS.range pixelsPerFrame).

(** The slot [s] of a ring buffer whose frames take [frameBytes] bytes. *)
Definition slot (frameBytes : Z) (colorData : list byte) (s : Z) : list byte :=
  take (Z.to_nat frameBytes) (drop (Z.to_nat (s * frameBytes)) colorData).

(** The ring after the frames [captured]: the page captures, the write
    index is the number of frames modulo the size of the ring, each of the
    last [targetFrames] frames is in the slot of its number, and the slots
    never written are still zero. *)
Definition ringInv (sampling : Sampling) (captured : list (list byte))
    (r : State) : Prop :=
  let pixelsPerFrame := targetW sampling * targetH sampling in
  let frameBytes := pixelsPerFrame * 4 in
  let total := targetFrames sampling in
  let n := Z.of_nat (length captured) in
  exists colorData,
    capturing r colorData
    /\ Z.of_nat (length colorData) = frameBytes * total
    /\ writeIndexRef r = n mod total
    /\ (forall (k : nat) data,
          captured !! k = Some data -> n - total <= Z.of_nat k ->
          slot frameBytes colorData (Z.of_nat k mod total)
          = storedFrame pixelsPerFrame data)
    /\ (forall s, n <= s < total ->
          slot frameBytes colorData s = replicate (Z.to_nat frameBytes) x00).

End Page.

(** ** Instances of the platform conversions

    Concrete conversions to run the exporters on examples. *)

Module Reference.

Import Platform.

(** [n / d] rounded to the nearest integer, ties to even ([0 <= n], [0 < d]). *)
Definition roundHalfEven (n d : Z) : Z :=
  let q := n / d in
  let r := n mod d in
  if 2 * r <? d then q
  else if d <? 2 * r then q + 1
  else if Z.even q then q else q + 1.

(** The IEEE 754 binary32 pattern nearest to a rational. *)
Definition float32Bits (v : Q) : Z :=
  let n := Qnum v in
  let d := Z.pos (Qden v) in
  if n =? 0 then 0
  else
    let sign := if n <? 0 then 2 ^ 31 else 0 in
    let a := Z.abs n in
    let e0 := Z.log2 a - Z.log2 d in
    let reaches (e : Z) :=
      if 0 <=? e then d * 2 ^ e <=? a else d <=? a * 2 ^ (- e) in
    let e := Z.max (if reaches e0 then e0 else e0 - 1) (-126) in
    let m :=
      if e <=? 23 then roundHalfEven (a * 2 ^ (23 - e)) d
      else roundHalfEven a (d * 2 ^ (e - 23)) in
    let bits := (e + 126) * 2 ^ 23 + m in
    sign + Z.min bits 2139095040.

Definition byteOfZ (z : Z) : byte :=
  default x00 (Byte.of_N (Z.to_N (z mod 256))).

(** [DataView.setFloat32(_, v, true)]: the four bytes, lowest first. *)
Definition float32LE (v : Q) : list byte :=
  let bits := float32Bits v in
  [byteOfZ bits; byteOfZ (bits / 2 ^ 8); byteOfZ (bits / 2 ^ 16);
   byteOfZ (bits / 2 ^ 24)].

(** The text of a number: as the platform writes it for an integer and for
    a half-integer, which is what the grid coordinates are; any other
    rational is written as a fraction. *)
Definition numberToString (v : Q) : string :=
  let v := Qred v in
  let n := Qnum v in
  match Qden v with
  | 1%positive => showInt n
  | 2%positive =>
      ((if (n <? 0)%Z then "-" else "") ++ showInt (Z.abs n / 2)%Z ++ ".5")%string
  | d => (showInt n ++ "/" ++ showInt (Z.pos d))%string
  end.

End Reference.

(** ** Example inputs *)

Module Examples.

(** Two frames of 2 x 1 pixels; the older one is in slot 1. *)
Definition exampleData : Ply.PLYExportData :=
  {| Ply.colorData := [x0a; x0b; x0c; xff; x14; x15; x16; xff;
                       x1e; x1f; x20; xff; x28; x29; x2a; xff];
     Ply.width := 2; Ply.height := 1; Ply.frames := 2;
     Ply.spacing := 2%Q; Ply.writeIndex := 1 |}.

(** No frame at all. *)
Definition emptyData : Ply.PLYExportData :=
  {| Ply.colorData := []; Ply.width := 2; Ply.height := 1; Ply.frames := 0;
     Ply.spacing := 2%Q; Ply.writeIndex := 0 |}.

(** A ring of three frames of 2 x 1 pixels, and one of a single frame. *)
Definition smallSampling : Page.Sampling :=
  {| Page.targetW := 2; Page.targetH := 1; Page.targetFrames := 3 |}.

Definition singleSlot : Page.Sampling :=
  {| Page.targetW := 2; Page.targetH := 1; Page.targetFrames := 1 |}.

(** What the number inputs give when [-8] is typed for width and height. *)
Definition negativePair : Page.Sampling :=
  {| Page.targetW := -8; Page.targetH := -8; Page.targetFrames := 60 |}.

(** What they give when [-8] is typed for the width and [-60] for the
    number of frames. *)
Definition negativeFrames : Page.Sampling :=
  {| Page.targetW := -8; Page.targetH := 8; Page.targetFrames := -60 |}.

Definition frameA : list byte := [x01; x02; x03; xff; x04; x05; x06; xff].
Definition frameB : list byte := [x11; x12; x13; xff; x14; x15; x16; xff].
Definition frameC : list byte := [x21; x22; x23; xff; x24; x25; x26; xff].

End Examples.

(** ** page.tsx, the version with the [(width, height * frames)] texture

    The later version of the page keeps the ring in a texture of
    [targetW] columns and [targetH * targetFrames] rows; its
    [initLivePoints] and [processFrame] differ from the ones above in the
    size expression of the buffer and in the copy loop. *)

Module TiledPage.

Import MathUtils Platform Page.

Section Component.

Variable sampling : Sampling.
Variable env : Env.

Let targetW := targetW sampling.
Let targetH := targetH sampling.
Let targetFrames := targetFrames sampling.

Definition initLivePoints (r : State) : bool * State :=
  if negb (sceneReady env) || negb (hiddenCanvasReady env) then
    (false, setStatus StatusNotInitialised r)
  else
    let pixelsPerFrame := targetW * targetH in
    let totalPoints := calcTotalPoints targetW targetH targetFrames in
    if totalPoints <=? 0 then
      (false, setStatus StatusInvalidTarget r)
    else
      let r := allocate Float32Array (totalPoints * 3) r in
      let r := allocate Float32Array totalPoints r in
      let r := allocate Float32Array totalPoints r in
      let geometry := fillGeometry sampling totalPoints in
      if negb (contextAvailable env) then
        (false, setStatus StatusNoContext r)
      else
        let r := disposePoints env r in
        let texWidth := targetW in
        let texHeight := targetH * targetFrames in
        let r := allocate Uint8Array (texWidth * texHeight * 4) r in
        let colorData := replicate (Z.to_nat (texWidth * texHeight * 4)) x00 in
        (true,
         {| ctxRef := true; capturingRef := capturingRef r;
            colorDataRef := Some colorData; colorTextureRef := Some true;
            materialRef := Some 0; pointsRef := Some geometry;
            writeIndexRef := 0; frameCountRef := 0;
            status := status r; allocations := allocations r |}).

Definition processFrame (data : list byte) (r : State) : State :=
  if negb (capturingRef r) then r
  else
    match videoReady env, ctxRef r, colorDataRef r,
          colorTextureRef r, materialRef r with
    | true, true, Some colorData, Some _, Some _ =>
        let writeIndex := writeIndexRef r in
        let frameYOffset := writeIndex * targetH in
        let colorData :=
          foldl (fun colorData y =>
            foldl (fun colorData x =>
              let srcBase := (y * targetW + x) * 4 in
              let dstBase := ((frameYOffset + y) * targetW + x) * 4 in
              let colorData :=
                u8set colorData dstBase (toUint8 (u8get data srcBase)) in
              let colorData :=
                u8set colorData (dstBase + 1) (toUint8 (u8get data (srcBase + 1))) in
              let colorData :=
                u8set colorData (dstBase + 2) (toUint8 (u8get data (srcBase + 2))) in
              u8set colorData (dstBase + 3) xff)
              colorData (JS.range targetW))
            colorData (JS.range targetH) in
        let writeIndex' := JS.rem (writeIndex + 1) targetFrames in
        let frameCount := frameCountRef r + 1 in
        {| ctxRef := ctxRef r; capturingRef := capturingRef r;
           colorDataRef := Some colorData; colorTextureRef := Some true;
           materialRef := Some writeIndex'; pointsRef := pointsRef r;
           writeIndexRef := writeIndex'; frameCountRef := frameCount;
           status := if JS.rem frameCount 30 =? 0 then StatusLive frameCount
                     else status r;
           allocations := allocations r |}
    | _, _, _, _, _ => r
    end.

Definition startCapture (r : State) : State :=
  if capturingRef r then r
  else if negb (videoReady env) then stopCapture (setStatus StatusStartFailed r)
  else
    let '(ok, r) := initLivePoints r in
    if ok then setStatus StatusStarted (setCapturing true r)
    else stopCapture (setStatus StatusStartFailed r).

Definition run (r0 : State) (captured : list (list byte)) : State :=
  foldl (fun r data => processFrame data r) (startCapture r0) captured.

End Component.

End TiledPage.

(** ** page.tsx: saving the point cloud *)

Module PageExport.

Import MathUtils Platform Page.

(** What a save button does: nothing but a status text when there is no
    point cloud, an exception of the exporter, or a download of [content]
    followed by a status text with [totalPoints]. *)
Inductive SaveResult (A : Type) :=
  | NoData
  | Threw
  | Saved (content : A) (totalPoints : Z).

Arguments NoData {A}.
Arguments Threw {A}.
Arguments Saved {A} content totalPoints.

Section Save.

Variable numberToString : Q -> string.
Variable float32LE : Q -> list byte.
Variable sampling : Sampling.
Variable spacing : Q.

(** The object literal handed to the exporters. *)
Definition exportData (colorData : list byte) (r : State) : Ply.PLYExportData :=
  {| Ply.colorData := colorData;
     Ply.width := targetW sampling;
     Ply.height := targetH sampling;
     Ply.frames := targetFrames sampling;
     Ply.spacing := spacing;
     Ply.writeIndex := writeIndexRef r |}.

Definition savePLY (r : State) : SaveResult string :=
  match colorDataRef r, pointsRef r with
  | Some colorData, Some _ =>
      let plyContent :=
        Ply.createPLYDataASCII numberToString (exportData colorData r) in
      let totalPoints :=
        calcTotalPoints (targetW sampling) (targetH sampling) (targetFrames sampling) in
      Saved plyContent totalPoints
  | _, _ => NoData
  end.

Definition savePLYBinary (r : State) : SaveResult (list byte) :=
  match colorDataRef r, pointsRef r with
  | Some colorData, Some _ =>
      match Ply.createPLYDataBinary float32LE (exportData colorData r) with
      | Some plyBinary =>
          let totalPoints :=
            calcTotalPoints (targetW sampling) (targetH sampling)
                            (targetFrames sampling) in
          Saved plyBinary totalPoints
      | None => Threw
      end
  | _, _ => NoData
  end.

End Save.

End PageExport.

(** ** page.tsx: the slice sliders

    Each of the X, Y and Z slices has two range inputs; [onChange] of the
    first one sets the lower bound to [clamp(value, minAll, max)], that of
    the second one sets the upper bound to [clamp(value, min, maxAll)]. *)

Module SliceControls.

Import MathUtils.

Record Slice := { sliceMin : Q; sliceMax : Q }.

Record Extent := { minAll : Q; maxAll : Q }.

Inductive SliderEvent :=
  | MinInput (value : Q)
  | MaxInput (value : Q).

Definition onChange (extent : Extent) (s : Slice) (e : SliderEvent) : Slice :=
  match e with
  | MinInput value =>
      {| sliceMin := clamp value (minAll extent) (sliceMax s);
         sliceMax := sliceMax s |}
  | MaxInput value =>
      {| sliceMin := sliceMin s;
         sliceMax := clamp value (sliceMin s) (maxAll extent) |}
  end.

(** The effect on [spacing]: the Z slice is pulled inside the new legal
    range, [setZMin(prev < minLegal ? minLegal : prev)] and
    [setZMax(prev > maxLegal ? maxLegal : prev)]. *)
Definition onSpacing (zMinBase zMaxBase spacing : Q) (s : Slice) : Slice :=
  let minLegal := (zMinBase * spacing)%Q in
  let maxLegal := (zMaxBase * spacing)%Q in
  {| sliceMin := if Qlt_le_dec (sliceMin s) minLegal then minLegal else sliceMin s;
     sliceMax := if Qlt_le_dec maxLegal (sliceMax s) then maxLegal else sliceMax s |}.

End SliceControls.

Import MathUtils.

(** ** Arithmetic of the ring index *)

Lemma rem_nonneg_mod (a b : Z) : 0 <= a -> 0 < b -> JS.rem a b = a mod b.
Proof. intros Ha Hb. unfold JS.rem. apply Z.rem_mod_nonneg; lia. Qed.

Lemma calcActualFrameIndex_mod (l w t : Z) :
  0 <= w + l -> 0 < t -> calcActualFrameIndex l w t = (w + l) mod t.
Proof. intros. unfold calcActualFrameIndex. now apply rem_nonneg_mod. Qed.

Lemma glslMod_mod (x y : Z) : y <> 0 -> Shader.glslMod x y = x mod y.
Proof. intros Hy. unfold Shader.glslMod. rewrite Z.mod_eq by exact Hy. reflexivity. Qed.

Lemma mod_shift_inj (w t a b : Z) :
  0 < t -> 0 <= a < t -> 0 <= b < t ->
  (w + a) mod t = (w + b) mod t -> a = b.
Proof.
  intros Ht Ha Hb E.
  assert (Hd : (a - b) mod t = 0).
  { replace (a - b) with ((w + a) - (w + b)) by lia.
    rewrite Zminus_mod, E, Z.sub_diag. apply Z.mod_0_l. lia. }
  apply Z.mod_divide in Hd; [|lia].
  destruct Hd as [k Hk].
  assert (k = 0) by nia. subst k. lia.
Qed.

(** C1. For [totalFrames > 0] and [writeIndex], [logicalFrame] in
    [[0, totalFrames)], [calcActualFrameIndex] is [(writeIndex + logicalFrame)
    mod totalFrames]; for a fixed [writeIndex] it maps [[0, totalFrames)] into
    itself, injectively and onto; and [calcActualFrameIndex 0 30 60 = 30]. *)
Theorem calcActualFrameIndex_ring (totalFrames writeIndex : Z) :
  0 < totalFrames -> 0 <= writeIndex < totalFrames ->
  (forall l, 0 <= l < totalFrames ->
     calcActualFrameIndex l writeIndex totalFrames
       = (writeIndex + l) mod totalFrames
     /\ 0 <= calcActualFrameIndex l writeIndex totalFrames < totalFrames)
  /\ (forall l1 l2, 0 <= l1 < totalFrames -> 0 <= l2 < totalFrames ->
        calcActualFrameIndex l1 writeIndex totalFrames
          = calcActualFrameIndex l2 writeIndex totalFrames -> l1 = l2)
  /\ (forall s, 0 <= s < totalFrames ->
        exists l, 0 <= l < totalFrames
                  /\ calcActualFrameIndex l writeIndex totalFrames = s)
  /\ calcActualFrameIndex 0 30 60 = 30.
Proof.
  intros Ht Hw. split; [|split; [|split]].
  - intros l Hl. rewrite calcActualFrameIndex_mod by lia.
    split; [reflexivity | apply Z.mod_pos_bound; lia].
  - intros l1 l2 H1 H2. rewrite !calcActualFrameIndex_mod by lia.
    now apply mod_shift_inj.
  - intros s Hs. exists ((s - writeIndex) mod totalFrames).
    pose proof (Z.mod_pos_bound (s - writeIndex) totalFrames Ht) as Hb.
    split; [exact Hb|].
    rewrite calcActualFrameIndex_mod by lia.
    rewrite Zplus_mod_idemp_r.
    replace (writeIndex + (s - writeIndex)) with s by lia.
    apply Z.mod_small; lia.
  - reflexivity.
Qed.

Lemma calcActualFrameIndex_ring_witness :
  (forall l, 0 <= l < 60 ->
     calcActualFrameIndex l 30 60 = (30 + l) mod 60
     /\ 0 <= calcActualFrameIndex l 30 60 < 60)
  /\ (forall l1 l2, 0 <= l1 < 60 -> 0 <= l2 < 60 ->
        calcActualFrameIndex l1 30 60 = calcActualFrameIndex l2 30 60 -> l1 = l2)
  /\ (forall s, 0 <= s < 60 ->
        exists l, 0 <= l < 60 /\ calcActualFrameIndex l 30 60 = s)
  /\ calcActualFrameIndex 0 30 60 = 30.
Proof. apply (calcActualFrameIndex_ring 60 30); lia. Defined.

(** C2. The shader's reordering undoes the ring index map: from
    [storedFrameIndex = calcActualFrameIndex logicalFrame writeIndex
    totalFrames] the shader formula gives back [logicalFrame]. *)
Theorem adjustedFrame_inverts_calcActualFrameIndex
    (totalFrames writeIndex logicalFrame : Z) :
  0 < totalFrames -> 0 <= writeIndex < totalFrames ->
  0 <= logicalFrame < totalFrames ->
  Shader.adjustedFrame
    (calcActualFrameIndex logicalFrame writeIndex totalFrames)
    writeIndex totalFrames = logicalFrame.
Proof.
  intros Ht Hw Hl. unfold Shader.adjustedFrame.
  rewrite glslMod_mod by lia.
  rewrite calcActualFrameIndex_mod by lia.
  rewrite <- Z.add_sub_swap, <- Z.add_sub_assoc.
  rewrite Zplus_mod_idemp_l.
  replace ((writeIndex + logicalFrame) + (totalFrames - writeIndex))
    with (logicalFrame + 1 * totalFrames) by lia.
  rewrite Z.mod_add by lia. apply Z.mod_small; lia.
Qed.

Lemma adjustedFrame_inverts_calcActualFrameIndex_witness :
  Shader.adjustedFrame (calcActualFrameIndex 45 30 60) 30 60 = 45.
Proof. apply (adjustedFrame_inverts_calcActualFrameIndex 60 30 45); lia. Defined.

(** C9. With [width, height > 0], [frameIndex >= 0] and a pixel index inside
    the frame, the four-argument form of [calcColorDataIndex] and the legacy
    form called with [width * height] agree, on
    [(frameIndex * width * height + pixelIndex) * 4]. *)
Theorem calcColorDataIndex_layouts_agree (frameIndex pixelIndex width height : Z) :
  0 < width -> 0 < height -> 0 <= frameIndex ->
  0 <= pixelIndex < width * height ->
  calcColorDataIndex frameIndex pixelIndex width (Some height)
    = calcColorDataIndex frameIndex pixelIndex (width * height) None
  /\ calcColorDataIndex frameIndex pixelIndex (width * height) None
     = (frameIndex * width * height + pixelIndex) * 4.
Proof.
  intros Hw Hh Hf Hp. unfold calcColorDataIndex, JS.floorDiv. split; [|lia].
  rewrite rem_nonneg_mod by lia.
  pose proof (Z.div_mod pixelIndex width ltac:(lia)) as E.
  set (q := pixelIndex / width) in *. set (r := pixelIndex mod width) in *.
  lia.
Qed.

Lemma calcColorDataIndex_layouts_agree_witness :
  calcColorDataIndex 5 (20 * 144 + 10) 144 (Some 255)
    = calcColorDataIndex 5 (20 * 144 + 10) (144 * 255) None
  /\ calcColorDataIndex 5 (20 * 144 + 10) (144 * 255) None
     = (5 * 144 * 255 + (20 * 144 + 10)) * 4.
Proof. apply (calcColorDataIndex_layouts_agree 5 (20 * 144 + 10) 144 255); lia. Defined.

(** ** Loop nests and their lists *)

Section LoopFacts.
Context {A B : Type}.

Lemma foldl_flat (k : B -> A -> B) (g : Z -> A) (l : list Z) (acc : B) :
  foldl (fun acc x => k acc (g x)) acc l = foldl k acc (g <$> l).
Proof. symmetry. apply foldl_fmap. Qed.

Lemma foldl_concat (k : B -> A -> B) (ls : list (list A)) (acc : B) :
  foldl (fun acc l => foldl k acc l) acc ls = foldl k acc (concat ls).
Proof.
  revert acc. induction ls as [|l ls IH]; intros acc; simpl; [reflexivity|].
  rewrite foldl_app. apply IH.
Qed.

Lemma foldl_ext_in {C} (f1 f2 : B -> C -> B) (l : list C) (acc : B) :
  (forall b c, f1 b c = f2 b c) -> foldl f1 acc l = foldl f2 acc l.
Proof.
  intros E. revert acc. induction l as [|c l IH]; intros acc; simpl; [reflexivity|].
  rewrite E. apply IH.
Qed.

Lemma foldl_grid (k : B -> A -> B) (g : Z -> Z -> Z -> A) (fr h w : Z) (acc : B) :
  foldl (fun acc f =>
    foldl (fun acc y =>
      foldl (fun acc x => k acc (g f y x)) acc (JS.range w))
      acc (JS.range h))
    acc (JS.range fr)
  = foldl k acc (Loops.grid fr h w g).
Proof.
  unfold Loops.grid. rewrite <- foldl_concat, foldl_fmap.
  apply foldl_ext_in. intros b f.
  rewrite <- foldl_concat, foldl_fmap.
  apply foldl_ext_in. intros b' y. apply foldl_flat.
Qed.

Lemma foldl_push (g : A -> B) (l : list A) (acc : list B) :
  foldl (fun acc a => acc ++ [g a]) acc l = acc ++ (g <$> l).
Proof.
  revert acc. induction l as [|a l IH]; intros acc; simpl.
  - now rewrite app_nil_r.
  - rewrite IH, <- app_assoc. reflexivity.
Qed.

End LoopFacts.

Section GridFacts.
Context {A : Type}.

Lemma lookup_concat_uniform (ls : list (list A)) (n i j : nat) :
  Forall (fun l => length l = n) ls -> (j < n)%nat ->
  concat ls !! (i * n + j)%nat = ls !! i ≫= (fun l => l !! j).
Proof.
  intros Hall Hj. revert i. induction Hall as [|l ls Hl _ IH]; intros i.
  - simpl. now rewrite !lookup_nil.
  - destruct i as [|i]; simpl.
    + apply lookup_app_l. lia.
    + rewrite lookup_app_r by lia.
      replace (n + i * n + j - length l)%nat with (i * n + j)%nat by lia.
      apply IH.
Qed.

Lemma length_concat_uniform (ls : list (list A)) (n : nat) :
  Forall (fun l => length l = n) ls -> length (concat ls) = (length ls * n)%nat.
Proof.
  induction 1 as [|l ls Hl _ IH]; simpl; [reflexivity|].
  rewrite length_app, IH. lia.
Qed.

Lemma length_range (n : Z) : length (JS.range n) = Z.to_nat n.
Proof. apply length_seqZ. Qed.

Lemma lookup_range (n i : Z) :
  0 <= i < n -> JS.range n !! Z.to_nat i = Some i.
Proof.
  intros Hi. unfold JS.range. rewrite lookup_seqZ_lt by lia. f_equal. lia.
Qed.

Variable g : Z -> Z -> Z -> A.

Lemma length_row (w f y : Z) : length (g f y <$> JS.range w) = Z.to_nat w.
Proof. now rewrite length_fmap, length_range. Qed.

Lemma rows_uniform (h w f : Z) :
  Forall (fun l => length l = Z.to_nat w)
         ((fun y => g f y <$> JS.range w) <$> JS.range h).
Proof.
  apply Forall_fmap, Forall_forall. intros y _. apply length_row.
Qed.

Lemma length_frame (h w f : Z) :
  length (concat ((fun y => g f y <$> JS.range w) <$> JS.range h))
  = (Z.to_nat h * Z.to_nat w)%nat.
Proof.
  rewrite (length_concat_uniform _ (Z.to_nat w)) by apply rows_uniform.
  now rewrite length_fmap, length_range.
Qed.

Lemma frames_uniform (fr h w : Z) :
  Forall (fun l => length l = (Z.to_nat h * Z.to_nat w)%nat)
         ((fun f => concat ((fun y => g f y <$> JS.range w) <$> JS.range h))
            <$> JS.range fr).
Proof.
  apply Forall_fmap, Forall_forall. intros f _. apply length_frame.
Qed.

Lemma length_grid (fr h w : Z) :
  length (Loops.grid fr h w g) = (Z.to_nat fr * (Z.to_nat h * Z.to_nat w))%nat.
Proof.
  unfold Loops.grid.
  rewrite (length_concat_uniform _ (Z.to_nat h * Z.to_nat w)) by apply frames_uniform.
  now rewrite length_fmap, length_range.
Qed.

Lemma length_grid_Z (fr h w : Z) :
  0 <= fr -> 0 <= h -> 0 <= w ->
  Z.of_nat (length (Loops.grid fr h w g)) = fr * h * w.
Proof. intros. rewrite length_grid. nia. Qed.

(** The grid is frame-major and row-major: the point of [(f, y, x)] has
    the index [(f * h + y) * w + x]. *)
Lemma lookup_grid (fr h w f y x : Z) :
  0 <= f < fr -> 0 <= y < h -> 0 <= x < w ->
  Loops.grid fr h w g !! Z.to_nat ((f * h + y) * w + x) = Some (g f y x).
Proof.
  intros Hf Hy Hx. unfold Loops.grid.
  replace (Z.to_nat ((f * h + y) * w + x))
    with (Z.to_nat f * (Z.to_nat h * Z.to_nat w)
          + (Z.to_nat y * Z.to_nat w + Z.to_nat x))%nat by nia.
  rewrite lookup_concat_uniform; [|apply frames_uniform|nia].
  rewrite list_lookup_fmap, lookup_range by lia. simpl.
  rewrite lookup_concat_uniform; [|apply rows_uniform|lia].
  rewrite list_lookup_fmap, lookup_range by lia. simpl.
  rewrite list_lookup_fmap, lookup_range by lia. reflexivity.
Qed.

Lemma grid_nil (fr h w : Z) : fr * h * w = 0 -> Loops.grid fr h w g = [].
Proof.
  intros H0. apply length_zero_iff_nil. rewrite length_grid.
  assert (fr = 0 \/ h = 0 \/ w = 0) as [->|[->| ->]] by nia; simpl; lia.
Qed.

(** With a negative dimension some loop does not run at all. *)
Lemma length_grid_le (fr h w : Z) :
  0 <= fr * h * w -> Z.of_nat (length (Loops.grid fr h w g)) <= fr * h * w.
Proof.
  intros HN. rewrite length_grid.
  destruct (Z.le_gt_cases 0 fr) as [Hf|Hf];
    [|rewrite (Z2Nat.nonpos fr) by lia; simpl; lia].
  destruct (Z.le_gt_cases 0 h) as [Hh|Hh];
    [|rewrite (Z2Nat.nonpos h) by lia; simpl; lia].
  destruct (Z.le_gt_cases 0 w) as [Hw|Hw];
    [|rewrite (Z2Nat.nonpos w) by lia; lia].
  nia.
Qed.

Lemma take_drop_concat_uniform (ls : list (list A)) (n i : nat) (l : list A) :
  Forall (fun l => length l = n) ls -> ls !! i = Some l ->
  take n (drop (i * n) (concat ls)) = l.
Proof.
  intros Hall. revert i. induction Hall as [|l0 ls Hl _ IH]; intros i Hi.
  - now rewrite lookup_nil in Hi.
  - destruct i as [|i]; simpl in *.
    + injection Hi as ->. rewrite drop_0. now apply take_app_length'.
    + rewrite drop_app_ge by lia.
      replace (n + i * n - length l0)%nat with (i * n)%nat by lia.
      now apply IH.
Qed.

End GridFacts.

(** Every index below [fr * h * w] is the index of one grid cell. *)
Lemma grid_index_decompose (fr h w i : Z) :
  0 < h -> 0 < w -> 0 <= i < fr * h * w ->
  exists f y x, 0 <= f < fr /\ 0 <= y < h /\ 0 <= x < w
                /\ i = (f * h + y) * w + x.
Proof.
  intros Hh Hw Hi.
  exists (i / w / h), ((i / w) mod h), (i mod w).
  pose proof (Z.div_mod i w ltac:(lia)) as E1.
  pose proof (Z.div_mod (i / w) h ltac:(lia)) as E2.
  pose proof (Z.mod_pos_bound i w Hw) as B1.
  pose proof (Z.mod_pos_bound (i / w) h Hh) as B2.
  assert (0 <= i / w) by (apply Z.div_pos; lia).
  assert (0 <= i / w / h) by (apply Z.div_pos; lia).
  assert (i / w < fr * h) by (apply Z.div_lt_upper_bound; nia).
  assert (i / w / h < fr) by (apply Z.div_lt_upper_bound; nia).
  repeat split; lia.
Qed.

(** ** Writes into a buffer *)

Import Platform.

Lemma setBytes_at (pre rest bs : list byte) (offset : Z) :
  offset = Z.of_nat (length pre) -> (length bs <= length rest)%nat ->
  setBytes (pre ++ rest) offset bs = Some ((pre ++ bs) ++ drop (length bs) rest).
Proof.
  intros -> Hlen. unfold setBytes.
  rewrite length_app.
  replace ((0 <=? Z.of_nat (length pre))
           && (Z.of_nat (length pre) + Z.of_nat (length bs)
               <=? Z.of_nat (length pre + length rest)%nat)) with true
    by (symmetry; apply andb_true_intro; split; apply Z.leb_le; lia).
  f_equal. rewrite Nat2Z.id.
  replace (length pre) with (length pre + 0)%nat at 1 by lia.
  rewrite list_inserts_app_r, <- app_assoc. f_equal.
  rewrite <- (take_drop (length bs) rest) at 1.
  apply list_inserts_0_r. rewrite length_take. lia.
Qed.

Lemma newBuffer_nonneg (n : Z) :
  0 <= n -> newBuffer n = Some (replicate (Z.to_nat n) x00).
Proof.
  intros Hn. unfold newBuffer.
  destruct (Z.leb_spec 0 n); [reflexivity | lia].
Qed.

(** [new Uint8Array(a.length + b.length)] followed by the two [set] calls
    is the concatenation. *)
Lemma combine_buffers (a b : list byte) :
  (combined ← newBuffer (Z.of_nat (length a) + Z.of_nat (length b));
   combined ← setBytes combined 0 a;
   combined ← setBytes combined (Z.of_nat (length a)) b;
   Some combined) = Some (a ++ b).
Proof.
  rewrite newBuffer_nonneg by lia. simpl.
  rewrite Z2Nat.inj_add, !Nat2Z.id, replicate_add by lia.
  pose proof (setBytes_at [] (replicate (length a) x00 ++ replicate (length b) x00)
                a 0 eq_refl) as E.
  cbn [app] in E. rewrite E by (rewrite length_app, !length_replicate; lia).
  cbn [mbind option_bind].
  rewrite drop_app_length' by (now rewrite length_replicate).
  rewrite (setBytes_at a _ b) by (rewrite ?length_replicate; lia).
  simpl. rewrite drop_ge by (rewrite length_replicate; lia).
  now rewrite app_nil_r.
Qed.

(** ** The exporters as maps over the grid of points *)

Section ExporterFacts.

Import Ply.

Variable numberToString : Q -> string.
Variable float32LE : Q -> list byte.
Hypothesis float32LE_length : forall v, length (float32LE v) = 4%nat.

Lemma asciiLines_grid (d : PLYExportData) :
  asciiLines numberToString d
  = formatLine numberToString
      <$> Loops.grid (frames d) (height d) (width d) (pointOf d).
Proof.
  unfold asciiLines.
  etransitivity;
    [exact (foldl_grid (fun lines p => lines ++ [formatLine numberToString p])
              (pointOf d) (frames d) (height d) (width d) [])|].
  now rewrite foldl_push.
Qed.

Lemma length_encodePoint (p : RawPoint) : length (encodePoint float32LE p) = 15%nat.
Proof.
  unfold encodePoint. rewrite !length_app, !float32LE_length. reflexivity.
Qed.

Lemma writePoint_at (p : RawPoint) (pre rest : list byte) (offset : Z) :
  offset = Z.of_nat (length pre) -> (15 <= length rest)%nat ->
  writePoint float32LE p (pre ++ rest, offset)
  = Some ((pre ++ encodePoint float32LE p) ++ drop 15 rest, offset + 15).
Proof.
  intros Hoff Hlen. unfold writePoint, setFloat32, setUint8, encodePoint.
  rewrite (setBytes_at pre rest) by (rewrite ?float32LE_length; lia).
  cbn [mbind option_bind]. rewrite float32LE_length.
  rewrite (setBytes_at (pre ++ _) (drop 4 rest))
    by (rewrite ?length_app, ?length_drop, ?float32LE_length; lia).
  cbn [mbind option_bind]. rewrite float32LE_length, drop_drop.
  rewrite (setBytes_at ((pre ++ _) ++ _) (drop _ rest))
    by (rewrite ?length_app, ?length_drop, ?float32LE_length; lia).
  cbn [mbind option_bind]. rewrite float32LE_length, drop_drop.
  rewrite (setBytes_at (((pre ++ _) ++ _) ++ _) (drop _ rest))
    by (rewrite ?length_app, ?length_drop, ?float32LE_length; simpl; lia).
  cbn [mbind option_bind length]. rewrite drop_drop.
  rewrite (setBytes_at ((((pre ++ _) ++ _) ++ _) ++ _) (drop _ rest))
    by (rewrite ?length_app, ?length_drop, ?float32LE_length; simpl; lia).
  cbn [mbind option_bind length]. rewrite drop_drop.
  rewrite (setBytes_at (((((pre ++ _) ++ _) ++ _) ++ _) ++ _) (drop _ rest))
    by (rewrite ?length_app, ?length_drop, ?float32LE_length; simpl; lia).
  cbn [mbind option_bind length]. rewrite drop_drop.
  f_equal. f_equal; [|lia].
  rewrite <- !app_assoc. reflexivity.
Qed.

Lemma foldl_writePoint (ps : list RawPoint) (pre rest : list byte) :
  (15 * length ps <= length rest)%nat ->
  foldl (fun st p => st ≫= writePoint float32LE p)
        (Some (pre ++ rest, Z.of_nat (length pre))) ps
  = Some (pre ++ concat (encodePoint float32LE <$> ps)
              ++ drop (15 * length ps) rest,
          Z.of_nat (length pre) + 15 * Z.of_nat (length ps)).
Proof.
  revert pre rest. induction ps as [|p ps IH]; intros pre rest Hlen.
  - simpl. rewrite drop_0. f_equal. f_equal. lia.
  - assert (Hlen' : (15 + 15 * length ps <= length rest)%nat)
      by (rewrite length_cons in Hlen; lia).
    cbn [foldl fmap list_fmap concat length mbind option_bind].
    rewrite writePoint_at; [|reflexivity|lia].
    replace (Z.of_nat (length pre) + 15)
      with (Z.of_nat (length (pre ++ encodePoint float32LE p)))
      by (rewrite length_app, length_encodePoint; lia).
    rewrite IH by (rewrite length_drop; lia).
    rewrite drop_drop, length_app, length_encodePoint.
    f_equal. f_equal; [|lia].
    rewrite <- !app_assoc.
    now replace (15 * S (length ps))%nat with (15 + 15 * length ps)%nat by lia.
Qed.

Lemma binaryData_grid (d : PLYExportData) :
  let N := calcTotalPoints (width d) (height d) (frames d) in
  let ps := Loops.grid (frames d) (height d) (width d) (pointOf d) in
  0 <= N ->
  binaryData float32LE d
  = Some (concat (encodePoint float32LE <$> ps)
            ++ replicate (Z.to_nat (N * 15) - 15 * length ps) x00,
          15 * Z.of_nat (length ps)).
Proof.
  intros N ps HN. unfold binaryData. fold N.
  assert (Hn : Z.of_nat (length ps) <= N).
  { unfold N, calcTotalPoints in *. unfold ps.
    etransitivity; [apply length_grid_le|]; lia. }
  rewrite newBuffer_nonneg by (unfold BYTES_PER_POINT; lia).
  cbn [mbind option_bind].
  etransitivity;
    [exact (foldl_grid (fun st p => st ≫= writePoint float32LE p)
              (pointOf d) (frames d) (height d) (width d) _)|].
  fold ps.
  pose proof (foldl_writePoint ps []
                (replicate (Z.to_nat (N * BYTES_PER_POINT)) x00)) as E.
  cbn [app length] in E. change (Z.of_nat 0) with 0 in E. rewrite E.
  - rewrite drop_replicate. reflexivity.
  - rewrite length_replicate. unfold BYTES_PER_POINT. lia.
Qed.

Lemma createPLYDataBinary_grid (d : PLYExportData) :
  let N := calcTotalPoints (width d) (height d) (frames d) in
  let ps := Loops.grid (frames d) (height d) (width d) (pointOf d) in
  0 <= N ->
  createPLYDataBinary float32LE d
  = Some (textEncode (createPLYHeaderBinary N)
          ++ concat (encodePoint float32LE <$> ps)
          ++ replicate (Z.to_nat (N * 15) - 15 * length ps) x00).
Proof.
  intros N ps HN. unfold createPLYDataBinary.
  rewrite binaryData_grid by assumption.
  cbn [mbind option_bind]. apply combine_buffers.
Qed.

Lemma encodings_uniform (ps : list RawPoint) :
  Forall (fun l => length l = 15%nat) (encodePoint float32LE <$> ps).
Proof. apply Forall_fmap, Forall_forall. intros p _. apply length_encodePoint. Qed.

(** In range, the three colour reads of a point are bytes of [colorData]. *)
Lemma pointOf_colours (d : PLYExportData) (f y x : Z) :
  validInput d ->
  0 <= f < frames d -> 0 <= y < height d -> 0 <= x < width d ->
  let c := (((writeIndex d + f) mod frames d) * (width d * height d)
            + (y * width d + x)) * 4 in
  exists r g b,
    colorData d !! Z.to_nat c = Some r
    /\ colorData d !! Z.to_nat (c + 1) = Some g
    /\ colorData d !! Z.to_nat (c + 2) = Some b
    /\ red (pointOf d f y x) = Some r
    /\ green (pointOf d f y x) = Some g
    /\ blue (pointOf d f y x) = Some b.
Proof.
  intros (Hw & Hh & Hfr & Hlen & Hwi) Hf Hy Hx c.
  pose proof (Z.mod_pos_bound (writeIndex d + f) (frames d) Hfr) as Hs.
  set (s := (writeIndex d + f) mod frames d) in *.
  assert (Hc : 0 <= c /\ c + 3 < Z.of_nat (length (colorData d))).
  { rewrite Hlen. unfold c. split; [nia|].
    assert (y * width d + x < width d * height d) by nia.
    assert (s * (width d * height d) + (y * width d + x)
            < frames d * (width d * height d)) by nia.
    nia. }
  destruct (lookup_lt_is_Some_2 (colorData d) (Z.to_nat c) ltac:(lia)) as [r Hr].
  destruct (lookup_lt_is_Some_2 (colorData d) (Z.to_nat (c + 1)) ltac:(lia)) as [g Hg].
  destruct (lookup_lt_is_Some_2 (colorData d) (Z.to_nat (c + 2)) ltac:(lia)) as [b Hb].
  exists r, g, b. repeat split; try assumption.
  all: unfold pointOf; cbn [red green blue];
    unfold calcColorDataIndex, calcPixelIndex;
    rewrite calcActualFrameIndex_mod by lia; fold s; fold c;
    unfold u8get.
  - destruct (Z.leb_spec 0 c); [assumption | lia].
  - destruct (Z.leb_spec 0 (c + 1)); [assumption | lia].
  - destruct (Z.leb_spec 0 (c + 2)); [assumption | lia].
Qed.

End ExporterFacts.

(** ** The PLY exporters *)

Import Ply.

Lemma string_app_assoc (a b c : string) :
  ((a ++ b) ++ c = a ++ (b ++ c))%string.
Proof. induction a as [|ch a IH]; cbn; [reflexivity | now rewrite IH]. Qed.

Lemma string_app_nil_r (a : string) : (a ++ "" = a)%string.
Proof. induction a as [|ch a IH]; cbn; [reflexivity | now rewrite IH]. Qed.

Lemma binaryData_no_points (float32LE : Q -> list byte) (d : PLYExportData) :
  calcTotalPoints (width d) (height d) (frames d) = 0 ->
  binaryData float32LE d = Some ([], 0).
Proof.
  intros HN. unfold binaryData. rewrite HN.
  cbn [mbind option_bind newBuffer Z.mul Z.leb Z.compare Z.to_nat replicate].
  etransitivity;
    [exact (foldl_grid (fun st p => st ≫= writePoint float32LE p)
              (pointOf d) (frames d) (height d) (width d) _)|].
  rewrite grid_nil; [reflexivity|].
  unfold calcTotalPoints in HN. lia.
Qed.

(** C4. On a valid input both exporters write the same points in the same
    frame-major, row-major order: the text line and the 15-byte record
    number [(f * height + y) * width + x] hold the same coordinates (as text,
    and as float32) and the same three colour bytes of [colorData]. *)
Theorem createPLYData_same_points
    (numberToString : Q -> string) (float32LE : Q -> list byte)
    (d : PLYExportData) :
  (forall v, length (float32LE v) = 4%nat) ->
  validInput d ->
  let N := calcTotalPoints (width d) (height d) (frames d) in
  let lines := asciiLines numberToString d in
  exists data : list byte,
    createPLYDataASCII numberToString d
      = (createPLYHeaderASCII N ++ join LF lines)%string
    /\ createPLYDataBinary float32LE d
       = Some (textEncode (createPLYHeaderBinary N) ++ data)
    /\ Z.of_nat (length lines) = N
    /\ Z.of_nat (length data) = N * 15
    /\ (forall i, 0 <= i < N ->
          exists f y x, 0 <= f < frames d /\ 0 <= y < height d
                        /\ 0 <= x < width d
                        /\ i = (f * height d + y) * width d + x)
    /\ forall f y x,
         0 <= f < frames d -> 0 <= y < height d -> 0 <= x < width d ->
         let i := Z.to_nat ((f * height d + y) * width d + x) in
         let c := (((writeIndex d + f) mod frames d) * (width d * height d)
                   + (y * width d + x)) * 4 in
         let xPos := (inject_Z x - calcHalf (width d))%Q in
         let yPos := (calcHalf (height d) - inject_Z y)%Q in
         let zPos := ((inject_Z f - calcHalf (frames d)) * spacing d)%Q in
         exists r g b : byte,
           colorData d !! Z.to_nat c = Some r
           /\ colorData d !! Z.to_nat (c + 1) = Some g
           /\ colorData d !! Z.to_nat (c + 2) = Some b
           /\ lines !! i
              = Some (numberToString xPos ++ " " ++ numberToString yPos ++ " "
                      ++ numberToString zPos ++ " "
                      ++ showInt (Z.of_N (Byte.to_N r)) ++ " "
                      ++ showInt (Z.of_N (Byte.to_N g)) ++ " "
                      ++ showInt (Z.of_N (Byte.to_N b)))%string
           /\ take 15 (drop (15 * i) data)
              = float32LE xPos ++ float32LE yPos ++ float32LE zPos ++ [r; g; b].
Proof.
  intros Hf32 Hvalid N lines.
  pose proof Hvalid as (Hw & Hh & Hfr & Hlen & Hwi).
  set (ps := Loops.grid (frames d) (height d) (width d) (pointOf d)).
  assert (Hps : Z.of_nat (length ps) = N).
  { unfold ps, N, calcTotalPoints. rewrite length_grid_Z by lia. lia. }
  exists (concat (encodePoint float32LE <$> ps)).
  split; [reflexivity|]. split.
  { rewrite (createPLYDataBinary_grid float32LE Hf32 d) by (fold N; lia).
    fold N ps.
    replace (Z.to_nat (N * 15) - 15 * length ps)%nat with 0%nat by lia.
    now rewrite app_nil_r. }
  split. { unfold lines. rewrite asciiLines_grid, length_fmap. exact Hps. }
  split.
  { rewrite (length_concat_uniform _ 15) by now apply encodings_uniform.
    rewrite length_fmap. lia. }
  split.
  { intros i Hi. apply grid_index_decompose; try assumption.
    unfold N, calcTotalPoints in Hi. lia. }
  intros f y x Hf Hy Hx i c xPos yPos zPos.
  destruct (pointOf_colours d f y x Hvalid Hf Hy Hx) as (r & g & b & Hr & Hg & Hb & Er & Eg & Eb).
  exists r, g, b. repeat split; try assumption.
  - unfold lines. rewrite asciiLines_grid, list_lookup_fmap.
    unfold i. rewrite lookup_grid by assumption. cbn [fmap option_fmap option_map].
    unfold formatLine. rewrite Er, Eg, Eb. reflexivity.
  - rewrite (Nat.mul_comm 15 i).
    rewrite (take_drop_concat_uniform _ 15 i (encodePoint float32LE (pointOf d f y x))).
    + unfold encodePoint. rewrite Er, Eg, Eb. reflexivity.
    + now apply encodings_uniform.
    + rewrite list_lookup_fmap. unfold i, ps.
      rewrite lookup_grid by assumption. reflexivity.
Qed.

Lemma createPLYData_same_points_witness :
  let numberToString := Reference.numberToString in
  let float32LE := Reference.float32LE in
  let d := Examples.exampleData in
  ((forall v, length (float32LE v) = 4%nat) /\ validInput d)
  /\ (
  let N := calcTotalPoints (width d) (height d) (frames d) in
  let lines := asciiLines numberToString d in
  exists data : list byte,
    createPLYDataASCII numberToString d
      = (createPLYHeaderASCII N ++ join LF lines)%string
    /\ createPLYDataBinary float32LE d
       = Some (textEncode (createPLYHeaderBinary N) ++ data)
    /\ Z.of_nat (length lines) = N
    /\ Z.of_nat (length data) = N * 15
    /\ (forall i, 0 <= i < N ->
          exists f y x, 0 <= f < frames d /\ 0 <= y < height d
                        /\ 0 <= x < width d
                        /\ i = (f * height d + y) * width d + x)
    /\ forall f y x,
         0 <= f < frames d -> 0 <= y < height d -> 0 <= x < width d ->
         let i := Z.to_nat ((f * height d + y) * width d + x) in
         let c := (((writeIndex d + f) mod frames d) * (width d * height d)
                   + (y * width d + x)) * 4 in
         let xPos := (inject_Z x - calcHalf (width d))%Q in
         let yPos := (calcHalf (height d) - inject_Z y)%Q in
         let zPos := ((inject_Z f - calcHalf (frames d)) * spacing d)%Q in
         exists r g b : byte,
           colorData d !! Z.to_nat c = Some r
           /\ colorData d !! Z.to_nat (c + 1) = Some g
           /\ colorData d !! Z.to_nat (c + 2) = Some b
           /\ lines !! i
              = Some (numberToString xPos ++ " " ++ numberToString yPos ++ " "
                      ++ numberToString zPos ++ " "
                      ++ showInt (Z.of_N (Byte.to_N r)) ++ " "
                      ++ showInt (Z.of_N (Byte.to_N g)) ++ " "
                      ++ showInt (Z.of_N (Byte.to_N b)))%string
           /\ take 15 (drop (15 * i) data)
              = float32LE xPos ++ float32LE yPos ++ float32LE zPos ++ [r; g; b]).
Proof.
  split; [split; [reflexivity | repeat split; cbn; lia]|].
  apply (createPLYData_same_points Reference.numberToString
           Reference.float32LE Examples.exampleData);
    [reflexivity | repeat split; cbn; lia].
Defined.

(** C5. With [width, height, frames >= 0] the binary export is the encoded
    header followed by [totalPoints * 15] bytes, with [totalPoints =
    calcTotalPoints width height frames = width * height * frames]. *)
Theorem createPLYDataBinary_length
    (float32LE : Q -> list byte) (d : PLYExportData) :
  (forall v, length (float32LE v) = 4%nat) ->
  0 <= width d -> 0 <= height d -> 0 <= frames d ->
  let totalPoints := calcTotalPoints (width d) (height d) (frames d) in
  exists out : list byte,
    createPLYDataBinary float32LE d = Some out
    /\ Z.of_nat (length out)
       = Z.of_nat (length (textEncode (createPLYHeaderBinary totalPoints)))
         + totalPoints * 15
    /\ totalPoints = width d * height d * frames d
    /\ BYTES_PER_POINT = 15.
Proof.
  intros Hf32 Hw Hh Hfr N.
  assert (HN : 0 <= N) by (unfold N, calcTotalPoints; nia).
  eexists. split; [apply (createPLYDataBinary_grid float32LE Hf32 d); exact HN|].
  fold N. split; [|split; reflexivity].
  set (ps := Loops.grid (frames d) (height d) (width d) (pointOf d)).
  assert (Hps : Z.of_nat (length ps) = N).
  { unfold ps, N, calcTotalPoints. rewrite length_grid_Z by lia. lia. }
  rewrite !length_app, length_replicate.
  rewrite (length_concat_uniform _ 15) by now apply encodings_uniform.
  rewrite length_fmap. lia.
Qed.

Lemma createPLYDataBinary_length_witness :
  let float32LE := Reference.float32LE in
  let d := Examples.exampleData in
  ((forall v, length (float32LE v) = 4%nat)
   /\ 0 <= width d /\ 0 <= height d /\ 0 <= frames d)
  /\ (
  let totalPoints := calcTotalPoints (width d) (height d) (frames d) in
  exists out : list byte,
    createPLYDataBinary float32LE d = Some out
    /\ Z.of_nat (length out)
       = Z.of_nat (length (textEncode (createPLYHeaderBinary totalPoints)))
         + totalPoints * 15
    /\ totalPoints = width d * height d * frames d
    /\ BYTES_PER_POINT = 15).
Proof.
  split; [split; [reflexivity | cbn; lia]|].
  apply (createPLYDataBinary_length Reference.float32LE Examples.exampleData);
    [reflexivity | cbn; lia ..].
Defined.

(** C7. On a valid input the ASCII export is the ten header lines, in
    order and each ended by a line feed, followed by the [totalPoints] data
    lines joined by line feeds; a data line is ["x y z r g b"], three
    numbers and three bytes in decimal. *)
Theorem createPLYDataASCII_layout
    (numberToString : Q -> string) (d : PLYExportData) :
  validInput d ->
  let totalPoints := calcTotalPoints (width d) (height d) (frames d) in
  exists lines : list string,
    createPLYDataASCII numberToString d
      = ("ply" ++ LF
         ++ "format ascii 1.0" ++ LF
         ++ "element vertex " ++ showInt totalPoints ++ LF
         ++ "property float x" ++ LF
         ++ "property float y" ++ LF
         ++ "property float z" ++ LF
         ++ "property uchar red" ++ LF
         ++ "property uchar green" ++ LF
         ++ "property uchar blue" ++ LF
         ++ "end_header" ++ LF
         ++ join LF lines)%string
    /\ Z.of_nat (length lines) = totalPoints
    /\ Forall (fun line =>
         exists (x y z : Q) (r g b : byte),
           line = (numberToString x ++ " " ++ numberToString y ++ " "
                   ++ numberToString z ++ " "
                   ++ showInt (Z.of_N (Byte.to_N r)) ++ " "
                   ++ showInt (Z.of_N (Byte.to_N g)) ++ " "
                   ++ showInt (Z.of_N (Byte.to_N b)))%string) lines.
Proof.
  intros Hvalid N.
  pose proof Hvalid as (Hw & Hh & Hfr & Hlen & Hwi).
  exists (asciiLines numberToString d).
  split.
  { unfold createPLYDataASCII, createPLYHeaderASCII. fold N.
    cbn [join String.concat]. rewrite !string_app_assoc. reflexivity. }
  rewrite asciiLines_grid.
  set (ps := Loops.grid (frames d) (height d) (width d) (pointOf d)).
  assert (Hps : Z.of_nat (length ps) = N).
  { unfold ps, N, calcTotalPoints. rewrite length_grid_Z by lia. lia. }
  split; [now rewrite length_fmap|].
  apply Forall_fmap, Forall_lookup_2. intros i p Hp.
  pose proof (lookup_lt_Some _ _ _ Hp) as Hi.
  destruct (grid_index_decompose (frames d) (height d) (width d) (Z.of_nat i))
    as (f & y & x & Hf & Hy & Hx & Ei); try assumption.
  { unfold N, calcTotalPoints in Hps. lia. }
  assert (Ep : p = pointOf d f y x).
  { unfold ps in Hp. rewrite <- (Nat2Z.id i), Ei, lookup_grid in Hp by assumption.
    congruence. }
  destruct (pointOf_colours d f y x Hvalid Hf Hy Hx)
    as (r & g & b & _ & _ & _ & Er & Eg & Eb).
  exists (xPos p), (yPos p), (zPos p), r, g, b.
  cbn. unfold formatLine. rewrite Ep, Er, Eg, Eb. reflexivity.
Qed.

Lemma createPLYDataASCII_layout_witness :
  let numberToString := Reference.numberToString in
  let d := Examples.exampleData in
  validInput d
  /\ (
  let totalPoints := calcTotalPoints (width d) (height d) (frames d) in
  exists lines : list string,
    createPLYDataASCII numberToString d
      = ("ply" ++ LF
         ++ "format ascii 1.0" ++ LF
         ++ "element vertex " ++ showInt totalPoints ++ LF
         ++ "property float x" ++ LF
         ++ "property float y" ++ LF
         ++ "property float z" ++ LF
         ++ "property uchar red" ++ LF
         ++ "property uchar green" ++ LF
         ++ "property uchar blue" ++ LF
         ++ "end_header" ++ LF
         ++ join LF lines)%string
    /\ Z.of_nat (length lines) = totalPoints
    /\ Forall (fun line =>
         exists (x y z : Q) (r g b : byte),
           line = (numberToString x ++ " " ++ numberToString y ++ " "
                   ++ numberToString z ++ " "
                   ++ showInt (Z.of_N (Byte.to_N r)) ++ " "
                   ++ showInt (Z.of_N (Byte.to_N g)) ++ " "
                   ++ showInt (Z.of_N (Byte.to_N b)))%string) lines).
Proof.
  split; [repeat split; cbn; lia|].
  apply (createPLYDataASCII_layout Reference.numberToString Examples.exampleData).
  repeat split; cbn; lia.
Defined.

(** C10. When [calcTotalPoints width height frames = 0] the ASCII export
    is the header alone, declaring [element vertex 0], and the binary export
    is the encoded binary header alone. *)
Theorem createPLYData_no_points
    (numberToString : Q -> string) (float32LE : Q -> list byte)
    (d : PLYExportData) :
  calcTotalPoints (width d) (height d) (frames d) = 0 ->
  asciiLines numberToString d = []
  /\ createPLYDataASCII numberToString d = createPLYHeaderASCII 0
  /\ createPLYHeaderASCII 0
     = ("ply" ++ LF ++ "format ascii 1.0" ++ LF ++ "element vertex 0" ++ LF
        ++ "property float x" ++ LF ++ "property float y" ++ LF
        ++ "property float z" ++ LF ++ "property uchar red" ++ LF
        ++ "property uchar green" ++ LF ++ "property uchar blue" ++ LF
        ++ "end_header" ++ LF)%string
  /\ binaryData float32LE d = Some ([], 0)
  /\ createPLYDataBinary float32LE d
     = Some (textEncode (createPLYHeaderBinary 0)).
Proof.
  intros HN.
  assert (Hl : asciiLines numberToString d = []).
  { rewrite asciiLines_grid, grid_nil; [reflexivity|].
    unfold calcTotalPoints in HN. lia. }
  split; [exact Hl|]. split.
  { unfold createPLYDataASCII. rewrite HN, Hl. cbn [join String.concat].
    apply string_app_nil_r. }
  split; [reflexivity|]. split; [now apply binaryData_no_points|].
  unfold createPLYDataBinary. rewrite binaryData_no_points by exact HN.
  rewrite HN. cbn [mbind option_bind length].
  etransitivity; [apply combine_buffers|]. now rewrite app_nil_r.
Qed.

Lemma createPLYData_no_points_witness :
  let numberToString := Reference.numberToString in
  let float32LE := Reference.float32LE in
  let d := Examples.emptyData in
  calcTotalPoints (width d) (height d) (frames d) = 0
  /\ (
  asciiLines numberToString d = []
  /\ createPLYDataASCII numberToString d = createPLYHeaderASCII 0
  /\ createPLYHeaderASCII 0
     = ("ply" ++ LF ++ "format ascii 1.0" ++ LF ++ "element vertex 0" ++ LF
        ++ "property float x" ++ LF ++ "property float y" ++ LF
        ++ "property float z" ++ LF ++ "property uchar red" ++ LF
        ++ "property uchar green" ++ LF ++ "property uchar blue" ++ LF
        ++ "end_header" ++ LF)%string
  /\ binaryData float32LE d = Some ([], 0)
  /\ createPLYDataBinary float32LE d
     = Some (textEncode (createPLYHeaderBinary 0))).
Proof.
  split; [reflexivity|].
  apply (createPLYData_no_points Reference.numberToString Reference.float32LE
           Examples.emptyData).
  reflexivity.
Defined.

(** ** The capture step *)

Import Page.

Lemma u8set_at (pre rest : list byte) (i : Z) (j : nat) (v : byte) :
  i = Z.of_nat (length pre) + Z.of_nat j ->
  u8set (pre ++ rest) i v = pre ++ <[j := v]> rest.
Proof.
  intros ->. unfold u8set.
  destruct (Z.leb_spec 0 (Z.of_nat (length pre) + Z.of_nat j)); [|lia].
  replace (Z.to_nat (Z.of_nat (length pre) + Z.of_nat j))
    with (length pre + j)%nat by lia.
  apply insert_app_r.
Qed.

Lemma drop_four (l : list byte) (n : nat) :
  (n + 4 <= length l)%nat ->
  exists a b c e, drop n l = a :: b :: c :: e :: drop (n + 4) l.
Proof.
  intros Hn.
  destruct (lookup_lt_is_Some_2 l n ltac:(lia)) as [a Ha].
  destruct (lookup_lt_is_Some_2 l (S n) ltac:(lia)) as [b Hb].
  destruct (lookup_lt_is_Some_2 l (S (S n)) ltac:(lia)) as [c Hc].
  destruct (lookup_lt_is_Some_2 l (S (S (S n))) ltac:(lia)) as [e He].
  exists a, b, c, e.
  rewrite (drop_S l a n Ha), (drop_S l b _ Hb), (drop_S l c _ Hc), (drop_S l e _ He).
  now replace (n + 4)%nat with (S (S (S (S n)))) by lia.
Qed.

Lemma storedFrame_succ (k : nat) (data : list byte) :
  storedFrame (Z.of_nat (S k)) data
  = storedFrame (Z.of_nat k) data
    ++ [toUint8 (u8get data (Z.of_nat k * 4));
        toUint8 (u8get data (Z.of_nat k * 4 + 1));
        toUint8 (u8get data (Z.of_nat k * 4 + 2));
        xff].
Proof.
  unfold storedFrame, JS.range.
  rewrite seqZ_S, fmap_app, concat_app. cbn [fmap list_fmap concat].
  rewrite app_nil_r, Z.add_0_l. reflexivity.
Qed.

Lemma length_storedFrame (n : Z) (data : list byte) :
  length (storedFrame n data) = (Z.to_nat n * 4)%nat.
Proof.
  unfold storedFrame.
  rewrite (length_concat_uniform _ 4).
  - now rewrite length_fmap, length_range.
  - apply Forall_fmap, Forall_forall. intros p _. reflexivity.
Qed.

(** The copy loop of [processFrame] fills the bytes of one frame, from
    [rowOffset] on, and touches nothing else. *)
Lemma copy_loop (data : list byte) (k : nat) (pre rest : list byte) (rowOffset : Z) :
  rowOffset = Z.of_nat (length pre) -> (k * 4 <= length rest)%nat ->
  foldl (fun colorData p =>
    let srcBase := p * 4 in
    let dstBase := rowOffset + p * 4 in
    let colorData := u8set colorData dstBase (toUint8 (u8get data srcBase)) in
    let colorData :=
      u8set colorData (dstBase + 1) (toUint8 (u8get data (srcBase + 1))) in
    let colorData :=
      u8set colorData (dstBase + 2) (toUint8 (u8get data (srcBase + 2))) in
    u8set colorData (dstBase + 3) xff)
    (pre ++ rest) (JS.range (Z.of_nat k))
  = pre ++ storedFrame (Z.of_nat k) data ++ drop (k * 4) rest.
Proof.
  intros Hoff. induction k as [|k IH]; intros Hlen.
  - cbn. now rewrite drop_0.
  - unfold JS.range in *. rewrite seqZ_S, foldl_app, IH by lia.
    cbn [foldl]. rewrite Z.add_0_l.
    destruct (drop_four rest (k * 4) ltac:(lia)) as (a & b & c & e & Hd).
    rewrite Hd, storedFrame_succ, app_assoc.
    set (pre' := pre ++ storedFrame (Z.of_nat k) data).
    assert (Hpre' : Z.of_nat (length pre') = rowOffset + Z.of_nat k * 4).
    { unfold pre'. rewrite length_app, length_storedFrame. lia. }
    rewrite (u8set_at pre' _ _ 0) by lia.
    rewrite (u8set_at pre' _ _ 1) by lia.
    rewrite (u8set_at pre' _ _ 2) by lia.
    rewrite (u8set_at pre' _ _ 3) by lia.
    cbn [insert list_insert]. unfold pre'.
    rewrite <- !app_assoc. cbn [app].
    now replace (S k * 4)%nat with (k * 4 + 4)%nat by lia.
Qed.

(** Slots of a buffer in which one frame was replaced. *)
Lemma slot_replaced (F : nat) (pre new post : list byte) (s : Z) :
  length new = F -> length pre = (Z.to_nat s * F)%nat -> 0 <= s ->
  slot (Z.of_nat F) (pre ++ new ++ post) s = new.
Proof.
  intros Hn Hp Hs. unfold slot.
  replace (Z.to_nat (s * Z.of_nat F)) with (length pre) by nia.
  rewrite drop_app_length, Nat2Z.id. now apply take_app_length'.
Qed.

Lemma slot_kept (F : nat) (pre old new post : list byte) (w s : Z) :
  length new = F -> length old = F -> length pre = (Z.to_nat w * F)%nat ->
  0 <= w -> 0 <= s -> s <> w ->
  slot (Z.of_nat F) (pre ++ new ++ post) s
  = slot (Z.of_nat F) (pre ++ old ++ post) s.
Proof.
  intros Hn Ho Hp Hw Hs Hne. unfold slot.
  rewrite Nat2Z.id.
  replace (Z.to_nat (s * Z.of_nat F)) with (Z.to_nat s * F)%nat by nia.
  apply list_eq. intros i.
  rewrite !lookup_take. case_decide as Hi; [|reflexivity].
  rewrite !lookup_drop.
  destruct (Z.lt_ge_cases s w) as [Hlt|Hge].
  - rewrite !lookup_app_l by nia. reflexivity.
  - rewrite !(lookup_app_r pre) by nia.
    rewrite !lookup_app_r by nia.
    now rewrite Hn, Ho.
Qed.

Section CaptureFacts.

Variable sampling : Sampling.

Let W := targetW sampling.
Let H := targetH sampling.
Let T := targetFrames sampling.
Let ppf := W * H.
Let F := ppf * 4.

(** A capturing page stays capturing; the frame goes to the slot
    [writeIndexRef] and the index moves on. *)
Lemma processFrame_capturing (data : list byte) (r : State) (cd : list byte) :
  capturing r cd -> 0 <= ppf -> 0 <= writeIndexRef r ->
  (writeIndexRef r + 1) * F <= Z.of_nat (length cd) ->
  let r' := processFrame sampling readyEnv data r in
  capturing r'
    (take (Z.to_nat (writeIndexRef r * F)) cd
     ++ storedFrame ppf data
     ++ drop (Z.to_nat ((writeIndexRef r + 1) * F)) cd)
  /\ writeIndexRef r' = JS.rem (writeIndexRef r + 1) T.
Proof.
  intros (Hcap & Hctx & Hcd & [tex Htex] & [mat Hmat]) Hppf Hwi Hlen r'.
  subst r'. unfold processFrame, capturing.
  rewrite Hcap, Hctx, Hcd, Htex, Hmat.
  cbn [negb videoReady readyEnv capturingRef ctxRef colorDataRef
       colorTextureRef materialRef writeIndexRef].
  repeat split; eauto.
  f_equal.
  pose proof (copy_loop data (Z.to_nat ppf)
                (take (Z.to_nat (writeIndexRef r * F)) cd)
                (drop (Z.to_nat (writeIndexRef r * F)) cd)
                (writeIndexRef r * (Page.targetW sampling * Page.targetH sampling) * 4)) as E.
  rewrite take_drop, Z2Nat.id in E by exact Hppf.
  rewrite drop_drop in E.
  replace (Z.to_nat (writeIndexRef r * F) + Z.to_nat ppf * 4)%nat
    with (Z.to_nat ((writeIndexRef r + 1) * F)) in E by (unfold F; nia).
  apply E.
  - rewrite length_take. unfold F, ppf, W, H. nia.
  - rewrite length_drop. unfold F in *. nia.
Qed.

Lemma startCapture_capturing (r0 : State) :
  capturingRef r0 = false -> 0 < W -> 0 < H -> 0 < T ->
  capturing (startCapture sampling readyEnv r0)
            (replicate (Z.to_nat (ppf * T * 4)) x00)
  /\ writeIndexRef (startCapture sampling readyEnv r0) = 0.
Proof.
  intros Hr0 HW HH HT. unfold startCapture, initLivePoints. rewrite Hr0.
  cbn [negb orb sceneReady hiddenCanvasReady videoReady contextAvailable readyEnv].
  fold W H T.
  destruct (Z.leb_spec (calcTotalPoints W H T) 0) as [Hle|_];
    [unfold calcTotalPoints in Hle; nia|].
  unfold capturing. cbn. repeat split; eauto.
Qed.

Lemma slot_zeros (n : nat) (s : Z) (Fz Tz : Z) :
  0 <= Fz -> 0 <= s < Tz -> n = Z.to_nat (Fz * Tz) ->
  slot Fz (replicate n x00) s = replicate (Z.to_nat Fz) x00.
Proof.
  intros HF Hs ->. unfold slot.
  rewrite drop_replicate, take_replicate. f_equal. nia.
Qed.

Lemma mod_neq_close (a b t : Z) :
  0 < t -> 0 < a - b < t -> a mod t <> b mod t.
Proof.
  intros Ht Hab E.
  assert (Hd : (a - b) mod t = 0).
  { rewrite Zminus_mod, E, Z.sub_diag. apply Z.mod_0_l. lia. }
  apply Z.mod_divide in Hd; [|lia].
  destruct Hd as [k Hk].
  assert (k <= 0 \/ 1 <= k) as [Hk0|Hk1] by lia; nia.
Qed.

Lemma ringInv_start (r0 : State) :
  capturingRef r0 = false -> 0 < W -> 0 < H -> 0 < T ->
  ringInv sampling [] (startCapture sampling readyEnv r0).
Proof.
  intros Hr0 HW HH HT.
  destruct (startCapture_capturing r0 Hr0 HW HH HT) as [Hcap Hwi].
  exists (replicate (Z.to_nat (ppf * T * 4)) x00).
  fold W H T ppf F. cbn [length].
  split; [exact Hcap|]. split; [rewrite length_replicate; unfold F; nia|].
  split; [rewrite Hwi; symmetry; apply Z.mod_0_l; lia|].
  split; [intros k data Hk; now rewrite lookup_nil in Hk|].
  intros s Hs. apply (slot_zeros _ s F T); unfold F, ppf in *; nia.
Qed.

(** One step on a capturing page whose write index is in range: the slot
    of the write index receives the frame, every other slot is kept, and
    the index advances modulo the size of the ring. *)
Lemma processFrame_slots (data : list byte) (r : State) (cd : list byte) :
  0 < W -> 0 < H -> 0 < T ->
  capturing r cd -> Z.of_nat (length cd) = F * T ->
  0 <= writeIndexRef r < T ->
  let w := writeIndexRef r in
  let r' := processFrame sampling readyEnv data r in
  let cd' := take (Z.to_nat (w * F)) cd ++ storedFrame ppf data
             ++ drop (Z.to_nat ((w + 1) * F)) cd in
  capturing r' cd'
  /\ writeIndexRef r' = (w + 1) mod T
  /\ length cd' = length cd
  /\ slot F cd' w = storedFrame ppf data
  /\ forall s, 0 <= s -> s <> w -> slot F cd' s = slot F cd s.
Proof.
  intros HW HH HT Hcap Hlen Hbw w r' cd'.
  assert (HF : 0 < F) by (unfold F, ppf; nia).
  destruct (processFrame_capturing data r cd Hcap) as [Hcap' Hwi'];
    fold W H T ppf F w; [unfold ppf; nia | lia | nia |].
  fold W H T ppf F w r' cd' in Hcap', Hwi'.
  unfold cd' in *. clear cd'.
  set (pre := take (Z.to_nat (w * F)) cd) in *.
  set (post := drop (Z.to_nat ((w + 1) * F)) cd) in *.
  set (new := storedFrame ppf data) in *.
  set (old := take (Z.to_nat F) (drop (Z.to_nat (w * F)) cd)).
  assert (Hcd : cd = pre ++ old ++ post).
  { unfold pre, old, post.
    replace (Z.to_nat ((w + 1) * F)) with (Z.to_nat (w * F) + Z.to_nat F)%nat by nia.
    rewrite <- drop_drop, take_drop, take_drop. reflexivity. }
  assert (Hpre : length pre = (Z.to_nat w * Z.to_nat F)%nat)
    by (unfold pre; rewrite length_take; nia).
  assert (Hnew : length new = Z.to_nat F)
    by (unfold new; rewrite length_storedFrame; unfold F; nia).
  assert (Hold : length old = Z.to_nat F)
    by (unfold old; rewrite length_take, length_drop; nia).
  split; [exact Hcap'|].
  split; [rewrite Hwi'; apply rem_nonneg_mod; lia|].
  split.
  { pose proof (f_equal length Hcd) as HcdL.
    rewrite !length_app in *. lia. }
  split.
  - rewrite <- (Z2Nat.id F) by lia. apply slot_replaced; [exact Hnew|exact Hpre|lia].
  - intros s Hs Hne.
    transitivity (slot F (pre ++ old ++ post) s); [|now rewrite <- Hcd].
    rewrite <- (Z2Nat.id F) by lia.
    now apply (slot_kept (Z.to_nat F) pre old new post w s).
Qed.

Lemma ringInv_step (captured : list (list byte)) (data : list byte) (r : State) :
  0 < W -> 0 < H -> 0 < T ->
  ringInv sampling captured r ->
  ringInv sampling (captured ++ [data]) (processFrame sampling readyEnv data r).
Proof.
  intros HW HH HT (cd & Hcap & Hlen & Hwi & Hticks & Hzero).
  fold W H T ppf F in Hlen, Hwi, Hticks, Hzero.
  set (n := Z.of_nat (length captured)) in *.
  pose proof (Z.mod_pos_bound n T HT) as Hb.
  destruct (processFrame_slots data r cd HW HH HT Hcap Hlen ltac:(lia))
    as (Hcap' & Hwi' & Hlen' & Hnew & Hkept).
  set (w := writeIndexRef r) in *.
  set (cd' := take (Z.to_nat (w * F)) cd ++ storedFrame ppf data
              ++ drop (Z.to_nat ((w + 1) * F)) cd) in *.
  assert (Hn' : Z.of_nat (length (captured ++ [data])) = n + 1)
    by (rewrite length_app; cbn [length]; lia).
  exists cd'. fold W H T ppf F. rewrite Hn'.
  split; [exact Hcap'|].
  split; [lia|].
  split; [rewrite Hwi', Hwi; apply Zplus_mod_idemp_l|].
  split.
  - intros k d Hk Hge.
    destruct (decide (k = length captured)) as [->|Hne].
    + rewrite list_lookup_middle in Hk by reflexivity. injection Hk as <-.
      fold n. rewrite <- Hwi. exact Hnew.
    + assert (Hk' : captured !! k = Some d).
      { rewrite lookup_app in Hk. destruct (captured !! k) eqn:E; [exact Hk|].
        apply lookup_ge_None in E.
        destruct (k - length captured)%nat as [|m] eqn:Em; [lia|].
        destruct m; cbn in Hk; discriminate. }
      pose proof (lookup_lt_Some _ _ _ Hk') as Hlt.
      rewrite Hkept.
      * apply Hticks; [exact Hk'|lia].
      * apply Z.mod_pos_bound; lia.
      * rewrite Hwi. intros E. symmetry in E. revert E.
        apply mod_neq_close; [lia|]. unfold n. lia.
  - intros s Hs.
    assert (Hn : n mod T = n) by (apply Z.mod_small; lia).
    rewrite Hkept by lia. apply Hzero. lia.
Qed.

Lemma run_snoc (r0 : State) (captured : list (list byte)) (data : list byte) :
  run sampling readyEnv r0 (captured ++ [data])
  = processFrame sampling readyEnv data (run sampling readyEnv r0 captured).
Proof. unfold run. now rewrite foldl_app. Qed.

Lemma ringInv_run (r0 : State) (captured : list (list byte)) :
  capturingRef r0 = false -> 0 < W -> 0 < H -> 0 < T ->
  ringInv sampling captured (run sampling readyEnv r0 captured).
Proof.
  intros Hr0 HW HH HT.
  induction captured as [|data captured IH] using rev_ind.
  - now apply ringInv_start.
  - rewrite run_snoc. now apply ringInv_step.
Qed.

End CaptureFacts.

(** ** The ring buffer of the page *)

(** X22. From [startCapture] on, with positive dimensions: the write index
    starts at 0, is the number of captured frames modulo [targetFrames] and
    so stays in [[0, targetFrames)]; a [processFrame] step stores the frame
    in the slot of the write index, at the byte offset [writeIndex *
    pixelsPerFrame * 4], keeps every other slot, and advances the index
    modulo [targetFrames]; and the slot of logical frame [j] holds the frame
    captured [targetFrames - j] steps ago, so that the slot of the write
    index is the oldest one (or one never written). *)
Theorem ring_buffer_invariant
    (sampling : Sampling) (r0 : State)
    (captured : list (list byte)) (data : list byte) :
  0 < targetW sampling -> 0 < targetH sampling -> 0 < targetFrames sampling ->
  capturingRef r0 = false ->
  let pixelsPerFrame := targetW sampling * targetH sampling in
  let frameBytes := pixelsPerFrame * 4 in
  let total := targetFrames sampling in
  let n := Z.of_nat (length captured) in
  let r := run sampling readyEnv r0 captured in
  let r' := processFrame sampling readyEnv data r in
  let writeIndex := writeIndexRef r in
  writeIndexRef (run sampling readyEnv r0 []) = 0
  /\ writeIndex = n mod total
  /\ 0 <= writeIndex < total
  /\ writeIndexRef r' = (writeIndex + 1) mod total
  /\ exists colorData colorData',
       colorDataRef r = Some colorData
       /\ colorDataRef r' = Some colorData'
       /\ Z.of_nat (length colorData) = frameBytes * total
       /\ colorData'
          = take (Z.to_nat (writeIndex * pixelsPerFrame * 4)) colorData
            ++ storedFrame pixelsPerFrame data
            ++ drop (Z.to_nat ((writeIndex + 1) * pixelsPerFrame * 4)) colorData
       /\ slot frameBytes colorData' writeIndex = storedFrame pixelsPerFrame data
       /\ (forall s, 0 <= s < total -> s <> writeIndex ->
             slot frameBytes colorData' s = slot frameBytes colorData s)
       /\ forall j, 0 <= j < total ->
            let age := n - total + j in
            let s := calcActualFrameIndex j writeIndex total in
            (age < 0 ->
               slot frameBytes colorData s = replicate (Z.to_nat frameBytes) x00)
            /\ (0 <= age ->
                  exists frame, captured !! Z.to_nat age = Some frame
                    /\ slot frameBytes colorData s
                       = storedFrame pixelsPerFrame frame).
Proof.
  intros HW HH HT Hr0 ppf F T n r r' w.
  destruct (ringInv_run sampling r0 captured Hr0 HW HH HT)
    as (cd & Hcap & Hlen & Hwi & Hticks & Hzero).
  fold ppf F T n r w in Hcap, Hlen, Hwi, Hticks, Hzero.
  pose proof (Z.mod_pos_bound n T HT) as Hb.
  destruct (processFrame_slots sampling data r cd HW HH HT Hcap Hlen ltac:(fold w; lia))
    as (Hcap' & Hwi' & Hlen' & Hnew & Hkept).
  fold ppf F T w r' in Hcap', Hwi', Hlen', Hnew, Hkept.
  split; [apply (startCapture_capturing sampling r0 Hr0 HW HH HT)|].
  split; [exact Hwi|]. split; [lia|]. split; [exact Hwi'|].
  exists cd. eexists.
  split; [apply Hcap|]. split; [apply Hcap'|]. split; [exact Hlen|].
  split.
  { unfold F. now rewrite !Z.mul_assoc. }
  split; [exact Hnew|].
  split; [intros s Hs Hne; apply Hkept; lia|].
  intros j Hj age s.
  assert (Hs : s = (n + j) mod T).
  { unfold s. rewrite calcActualFrameIndex_mod by lia.
    rewrite Hwi. apply Zplus_mod_idemp_l. }
  split.
  - intros Hage. rewrite Hs, Z.mod_small by (unfold age in Hage; lia).
    apply Hzero. unfold age in Hage. lia.
  - intros Hage.
    destruct (lookup_lt_is_Some_2 captured (Z.to_nat age)) as [frame Hframe];
      [unfold age, n in *; lia|].
    exists frame. split; [exact Hframe|].
    rewrite Hs.
    replace (n + j) with (age + 1 * T) by (unfold age; lia).
    rewrite Z.mod_add by lia.
    rewrite <- (Z2Nat.id age) by lia.
    apply Hticks; [exact Hframe|]. unfold age in *. lia.
Qed.

Lemma ring_buffer_invariant_witness :
  let sampling := Examples.smallSampling in
  let r0 := mounted in
  let captured := [Examples.frameA; Examples.frameB; Examples.frameC;
                   Examples.frameA] in
  let data := Examples.frameB in
  (0 < targetW sampling /\ 0 < targetH sampling /\ 0 < targetFrames sampling
   /\ capturingRef r0 = false)
  /\ (
  let pixelsPerFrame := targetW sampling * targetH sampling in
  let frameBytes := pixelsPerFrame * 4 in
  let total := targetFrames sampling in
  let n := Z.of_nat (length captured) in
  let r := run sampling readyEnv r0 captured in
  let r' := processFrame sampling readyEnv data r in
  let writeIndex := writeIndexRef r in
  writeIndexRef (run sampling readyEnv r0 []) = 0
  /\ writeIndex = n mod total
  /\ 0 <= writeIndex < total
  /\ writeIndexRef r' = (writeIndex + 1) mod total
  /\ exists colorData colorData',
       colorDataRef r = Some colorData
       /\ colorDataRef r' = Some colorData'
       /\ Z.of_nat (length colorData) = frameBytes * total
       /\ colorData'
          = take (Z.to_nat (writeIndex * pixelsPerFrame * 4)) colorData
            ++ storedFrame pixelsPerFrame data
            ++ drop (Z.to_nat ((writeIndex + 1) * pixelsPerFrame * 4)) colorData
       /\ slot frameBytes colorData' writeIndex = storedFrame pixelsPerFrame data
       /\ (forall s, 0 <= s < total -> s <> writeIndex ->
             slot frameBytes colorData' s = slot frameBytes colorData s)
       /\ forall j, 0 <= j < total ->
            let age := n - total + j in
            let s := calcActualFrameIndex j writeIndex total in
            (age < 0 ->
               slot frameBytes colorData s = replicate (Z.to_nat frameBytes) x00)
            /\ (0 <= age ->
                  exists frame, captured !! Z.to_nat age = Some frame
                    /\ slot frameBytes colorData s
                       = storedFrame pixelsPerFrame frame)).
Proof.
  split; [repeat split; reflexivity|].
  apply (ring_buffer_invariant Examples.smallSampling mounted
           [Examples.frameA; Examples.frameB; Examples.frameC; Examples.frameA]
           Examples.frameB); reflexivity.
Defined.

(** What [initLivePoints] does reject: a product of the three dimensions
    that is zero or negative, before any typed array is created. *)
Lemma initLivePoints_rejects_nonpositive_total (sampling : Sampling) (r : State) :
  calcTotalPoints (targetW sampling) (targetH sampling) (targetFrames sampling) <= 0 ->
  initLivePoints sampling readyEnv r = (false, setStatus StatusInvalidTarget r)
  /\ allocations (setStatus StatusInvalidTarget r) = allocations r
  /\ colorDataRef (setStatus StatusInvalidTarget r) = colorDataRef r.
Proof.
  intros Hle. unfold initLivePoints.
  cbn [negb orb sceneReady hiddenCanvasReady readyEnv].
  destruct (Z.leb_spec
              (calcTotalPoints (targetW sampling) (targetH sampling)
                 (targetFrames sampling)) 0); [|lia].
  repeat split.
Qed.

(** C6, at the input [-8, -8, 60]: the product of the dimensions is
    positive, nothing is rejected, and the four typed arrays are created. *)
Theorem initLivePoints_negative_pair :
  let res := initLivePoints Examples.negativePair readyEnv mounted in
  fst res = true
  /\ status (snd res) = StatusIdle
  /\ allocations (snd res)
     = [(Float32Array, 11520); (Float32Array, 3840); (Float32Array, 3840);
        (Uint8Array, 15360)]
  /\ colorDataRef (snd res) = Some (replicate (Z.to_nat 15360) x00).
Proof. vm_compute. repeat split. Qed.

(** C3, at the input [-8, 8, -60]: the product of the dimensions is
    positive, the guard of [initLivePoints] lets it through, and the page
    captures.  The first [processFrame] moves the write index to
    [1 % -60 = 1], which is not in [[0, targetFrames)], and stores no byte
    of the frame, whatever the frame holds. *)
Theorem ring_invariant_negative_frames (data : list byte) :
  let sampling := Examples.negativeFrames in
  let r := run sampling readyEnv mounted [] in
  let r' := processFrame sampling readyEnv data r in
  capturingRef r = true /\ writeIndexRef r = 0
  /\ colorDataRef r = Some (replicate (Z.to_nat 15360) x00)
  /\ writeIndexRef r' = 1
  /\ ~ (0 <= writeIndexRef r' < targetFrames sampling)
  /\ colorDataRef r' = colorDataRef r
  /\ frameCountRef r' = 1.
Proof.
  cbv zeta. repeat split; try (vm_compute; reflexivity).
  vm_compute. intros [_ H]. discriminate H.
Qed.

(** With that input the write index runs over [[0, 60)], which is not below
    [targetFrames], and the buffer stays as it was created. *)
Example run_negative_frames :
  let sampling := {| targetW := -8; targetH := 8; targetFrames := -60 |} in
  let r := run sampling readyEnv mounted [Examples.frameA; Examples.frameB] in
  capturingRef r = true /\ writeIndexRef r = 2
  /\ colorDataRef r = Some (replicate (Z.to_nat 15360) x00).
Proof. vm_compute. repeat split. Qed.

(** C8. With [targetFrames = 1]: a [processFrame] step leaves the write
    index at 0, and sets it to 0 whenever it runs; the index is 0 in every
    state of a run; [calcActualFrameIndex 0 writeIndex 1 = 0] for every
    [writeIndex]; and after each captured frame the whole buffer is that
    frame, nothing older is kept. *)
Theorem single_slot_ring (sampling : Sampling) :
  targetFrames sampling = 1 ->
  (forall env data r,
     writeIndexRef r = 0 ->
     writeIndexRef (processFrame sampling env data r) = 0)
  /\ (forall env data r colorData,
        capturing r colorData -> videoReady env = true ->
        writeIndexRef (processFrame sampling env data r)
          = (writeIndexRef r + 1) mod 1
        /\ writeIndexRef (processFrame sampling env data r) = 0)
  /\ (forall env captured,
        writeIndexRef (run sampling env mounted captured) = 0)
  /\ (forall writeIndex, calcActualFrameIndex 0 writeIndex 1 = 0)
  /\ (forall captured data,
        0 < targetW sampling -> 0 < targetH sampling ->
        colorDataRef (run sampling readyEnv mounted (captured ++ [data]))
        = Some (storedFrame (targetW sampling * targetH sampling) data)).
Proof.
  intros HT.
  assert (Hstep : forall env data r,
            writeIndexRef r = 0 ->
            writeIndexRef (processFrame sampling env data r) = 0).
  { intros env data r Hr. unfold processFrame.
    destruct (capturingRef r), (videoReady env), (ctxRef r), (colorDataRef r),
      (colorTextureRef r), (materialRef r); cbn; try exact Hr.
    rewrite HT. apply Z.rem_1_r. }
  split; [exact Hstep|]. split.
  { intros env data r cd (Hcap & Hctx & Hcd & [tex Htex] & [mat Hmat]) Hv.
    unfold processFrame. rewrite Hcap, Hv, Hctx, Hcd, Htex, Hmat. cbn.
    rewrite HT. unfold JS.rem. rewrite Z.rem_1_r, Z.mod_1_r. split; reflexivity. }
  split.
  { intros env captured.
    induction captured as [|data captured IH] using rev_ind.
    - unfold run, startCapture, initLivePoints. cbn [foldl capturingRef mounted].
      destruct (videoReady env); [|reflexivity].
      destruct (sceneReady env), (hiddenCanvasReady env); cbn [negb orb]; try reflexivity.
      destruct (calcTotalPoints _ _ _ <=? 0); [reflexivity|].
      destruct (contextAvailable env); reflexivity.
    - unfold run in *. rewrite foldl_app. cbn [foldl]. now apply Hstep. }
  split; [intros w; unfold calcActualFrameIndex, JS.rem; apply Z.rem_1_r|].
  intros captured data HW HH.
  rewrite run_snoc.
  destruct (ringInv_run sampling mounted captured eq_refl HW HH ltac:(lia))
    as (cd & Hcap & Hlen & Hwi & _).
  rewrite HT, Z.mod_1_r in Hwi. rewrite HT in Hlen.
  set (r := run sampling readyEnv mounted captured) in *.
  destruct (processFrame_slots sampling data r cd HW HH ltac:(lia) Hcap)
    as (Hcap' & _); [rewrite HT; exact Hlen | lia |].
  destruct Hcap' as (_ & _ & Hcd' & _). rewrite Hcd', Hwi.
  f_equal. cbn [Z.mul Z.to_nat take app].
  rewrite drop_ge, app_nil_r; [reflexivity|lia].
Qed.

Lemma single_slot_ring_witness :
  let sampling := Examples.singleSlot in
  targetFrames sampling = 1
  /\ (
  (forall env data r,
     writeIndexRef r = 0 ->
     writeIndexRef (processFrame sampling env data r) = 0)
  /\ (forall env data r colorData,
        capturing r colorData -> videoReady env = true ->
        writeIndexRef (processFrame sampling env data r)
          = (writeIndexRef r + 1) mod 1
        /\ writeIndexRef (processFrame sampling env data r) = 0)
  /\ (forall env captured,
        writeIndexRef (run sampling env mounted captured) = 0)
  /\ (forall writeIndex, calcActualFrameIndex 0 writeIndex 1 = 0)
  /\ (forall captured data,
        0 < targetW sampling -> 0 < targetH sampling ->
        colorDataRef (run sampling readyEnv mounted (captured ++ [data]))
        = Some (storedFrame (targetW sampling * targetH sampling) data))).
Proof.
  split; [reflexivity|].
  apply (single_slot_ring Examples.singleSlot). reflexivity.
Defined.

(** ** The examples of the documentation, evaluated *)

Example calcHalf_128 : calcHalf 128 = (127 # 2)%Q.
Proof. reflexivity. Qed.

Example calcTotalPoints_128_72_60 : calcTotalPoints 128 72 60 = 552960.
Proof. reflexivity. Qed.

Example calcActualFrameIndex_doc :
  calcActualFrameIndex 0 30 60 = 30 /\ calcActualFrameIndex 29 30 60 = 59
  /\ calcActualFrameIndex 30 30 60 = 0 /\ calcActualFrameIndex 59 30 60 = 29.
Proof. repeat split. Qed.

Example calcZPosition_doc :
  (calcZPosition 0 60 2 == -59 /\ calcZPosition 30 60 2 == 1
   /\ calcZPosition 59 60 2 == 59)%Q.
Proof. repeat split. Qed.

Example asciiLines_exampleData :
  asciiLines Reference.numberToString Examples.exampleData
  = ["-0.5 0 -1 30 31 32"; "0.5 0 -1 40 41 42";
     "-0.5 0 1 10 11 12"; "0.5 0 1 20 21 22"]%string.
Proof. reflexivity. Qed.

Example binaryData_exampleData :
  fst <$> binaryData Reference.float32LE Examples.exampleData
  = Some [x00; x00; x00; xbf;  x00; x00; x00; x00;  x00; x00; x80; xbf;
          x1e; x1f; x20;
          x00; x00; x00; x3f;  x00; x00; x00; x00;  x00; x00; x80; xbf;
          x28; x29; x2a;
          x00; x00; x00; xbf;  x00; x00; x00; x00;  x00; x00; x80; x3f;
          x0a; x0b; x0c;
          x00; x00; x00; x3f;  x00; x00; x00; x00;  x00; x00; x80; x3f;
          x14; x15; x16].
Proof. reflexivity. Qed.

Example run_smallSampling :
  let r := run Examples.smallSampling readyEnv mounted
             [Examples.frameA; Examples.frameB; Examples.frameC; Examples.frameA] in
  writeIndexRef r = 1
  /\ colorDataRef r = Some (Examples.frameA ++ Examples.frameB ++ Examples.frameC).
Proof. split; reflexivity. Qed.

(** * Further properties of the helpers, the shader and the page *)

(** ** utils/math.ts *)

(** X1. [clamp] never gives less than [min]; with [min <= max] the result
    is in [[min, max]], is the value itself when that is in range and the
    nearer bound otherwise; with [max < min] it is [min]. *)
Theorem clamp_bounds (value min max : Q) :
  (min <= clamp value min max)%Q
  /\ ((min <= max)%Q ->
        (clamp value min max <= max)%Q
        /\ ((min <= value <= max)%Q -> (clamp value min max == value)%Q)
        /\ ((value < min)%Q -> (clamp value min max == min)%Q)
        /\ ((max < value)%Q -> (clamp value min max == max)%Q))
  /\ ((max < min)%Q -> (clamp value min max == min)%Q).
Proof.
  unfold clamp.
  destruct (Q.min_spec max value) as [[H1 E1]|[H1 E1]];
    destruct (Q.max_spec min (Qmin max value)) as [[H2 E2]|[H2 E2]];
    rewrite ?E2; rewrite E1 in *;
    repeat split; intros; try lra.
Qed.

(** Halving as a product, which linear arithmetic over [Q] understands. *)
Ltac halves := unfold Qdiv in *; change (/ 2)%Q with (1 # 2)%Q in *.

Lemma inject_Z_sub (x y : Z) : inject_Z (x - y) = (inject_Z x - inject_Z y)%Q.
Proof.
  change (x - y) with (x + - y). now rewrite inject_Z_plus, inject_Z_opp.
Qed.

Lemma inject_Z_bounds (x n : Z) :
  0 <= x < n -> (0 <= inject_Z x /\ inject_Z x <= inject_Z n - 1)%Q.
Proof.
  intros [H0 H1]. split.
  - change 0%Q with (inject_Z 0). rewrite <- Zle_Qle. exact H0.
  - change 1%Q with (inject_Z 1). rewrite <- inject_Z_sub, <- Zle_Qle. lia.
Qed.

(** X2. The cloud is centred on the origin: every coordinate of a point of
    the grid is within [calcHalf] of zero, and the pixel mirrored in all
    three axes gives the opposite point. *)
Theorem calcPoint3D_centred (x y f width height frames : Z) :
  0 <= x < width -> 0 <= y < height -> 0 <= f < frames ->
  let p := calcPoint3D x y f width height frames in
  let q := calcPoint3D (width - 1 - x) (height - 1 - y) (frames - 1 - f)
                       width height frames in
  (- calcHalf width <= px p <= calcHalf width)%Q
  /\ (- calcHalf height <= py p <= calcHalf height)%Q
  /\ (- calcHalf frames <= pz p <= calcHalf frames)%Q
  /\ (px q == - px p)%Q /\ (py q == - py p)%Q /\ (pz q == - pz p)%Q.
Proof.
  intros Hx Hy Hf p q.
  destruct (inject_Z_bounds x width Hx), (inject_Z_bounds y height Hy),
    (inject_Z_bounds f frames Hf).
  unfold p, q, calcPoint3D, calcHalf. cbn [px py pz].
  rewrite !inject_Z_sub. change (inject_Z 1) with 1%Q. halves.
  repeat split; lra.
Qed.

Lemma calcPoint3D_centred_witness :
  let p := calcPoint3D 64 36 30 128 72 60 in
  let q := calcPoint3D (128 - 1 - 64) (72 - 1 - 36) (60 - 1 - 30) 128 72 60 in
  (- calcHalf 128 <= px p <= calcHalf 128)%Q
  /\ (- calcHalf 72 <= py p <= calcHalf 72)%Q
  /\ (- calcHalf 60 <= pz p <= calcHalf 60)%Q
  /\ (px q == - px p)%Q /\ (py q == - py p)%Q /\ (pz q == - pz p)%Q.
Proof. apply (calcPoint3D_centred 64 36 30 128 72 60); lia. Defined.

(** X3. [calcPixelIndex] and the split [x = p % width],
    [y = floor(p / width)] used for the texture layout are inverse to each
    other. *)
Theorem calcPixelIndex_roundtrip (width : Z) :
  0 < width ->
  (forall x y, 0 <= x < width -> 0 <= y ->
     JS.rem (calcPixelIndex x y width) width = x
     /\ JS.floorDiv (calcPixelIndex x y width) width = y)
  /\ (forall p, 0 <= p ->
        calcPixelIndex (JS.rem p width) (JS.floorDiv p width) width = p).
Proof.
  intros Hw. unfold calcPixelIndex, JS.floorDiv. split.
  - intros x y Hx Hy. rewrite rem_nonneg_mod by nia. split.
    + rewrite Z.add_comm, Z.mod_add by lia. apply Z.mod_small; lia.
    + rewrite Z.add_comm, Z.div_add by lia. rewrite Z.div_small; lia.
  - intros p Hp. rewrite rem_nonneg_mod by lia.
    pose proof (Z.div_mod p width ltac:(lia)). lia.
Qed.

Lemma calcPixelIndex_roundtrip_witness :
  (forall x y, 0 <= x < 128 -> 0 <= y ->
     JS.rem (calcPixelIndex x y 128) 128 = x
     /\ JS.floorDiv (calcPixelIndex x y 128) 128 = y)
  /\ (forall p, 0 <= p ->
        calcPixelIndex (JS.rem p 128) (JS.floorDiv p 128) 128 = p).
Proof. apply (calcPixelIndex_roundtrip 128). lia. Defined.

(** X4. Inside a buffer of [frames] frames of [pixelsPerFrame] pixels,
    [calcColorDataIndex] gives each pixel of each frame its own four bytes:
    the index is a multiple of 4, the four bytes lie inside the buffer, and
    two different (frame, pixel) pairs never get the same index. *)
Theorem calcColorDataIndex_slots (pixelsPerFrame frames : Z) :
  0 < pixelsPerFrame -> 0 < frames ->
  (forall f p, 0 <= f < frames -> 0 <= p < pixelsPerFrame ->
     let i := calcColorDataIndex f p pixelsPerFrame None in
     0 <= i /\ i + 3 < pixelsPerFrame * frames * 4 /\ i mod 4 = 0)
  /\ (forall f1 p1 f2 p2,
        0 <= f1 < frames -> 0 <= p1 < pixelsPerFrame ->
        0 <= f2 < frames -> 0 <= p2 < pixelsPerFrame ->
        calcColorDataIndex f1 p1 pixelsPerFrame None
          = calcColorDataIndex f2 p2 pixelsPerFrame None ->
        f1 = f2 /\ p1 = p2).
Proof.
  intros Hp Hf. unfold calcColorDataIndex. split.
  - intros f p Hf' Hp'. cbv zeta. repeat split; try nia.
    apply Z.mod_mul. lia.
  - intros f1 p1 f2 p2 H1 H2 H3 H4 E.
    assert (f1 = f2) by nia. subst. split; [reflexivity | lia].
Qed.

Lemma calcColorDataIndex_slots_witness :
  (forall f p, 0 <= f < 60 -> 0 <= p < 9216 ->
     let i := calcColorDataIndex f p 9216 None in
     0 <= i /\ i + 3 < 9216 * 60 * 4 /\ i mod 4 = 0)
  /\ (forall f1 p1 f2 p2,
        0 <= f1 < 60 -> 0 <= p1 < 9216 ->
        0 <= f2 < 60 -> 0 <= p2 < 9216 ->
        calcColorDataIndex f1 p1 9216 None = calcColorDataIndex f2 p2 9216 None ->
        f1 = f2 /\ p1 = p2).
Proof. apply (calcColorDataIndex_slots 9216 60); lia. Defined.

(** X5. With a positive [spacing] the depth grows with the logical frame,
    older frames being further back; with a non-negative one every frame
    lies between [-zHalf * spacing] and [zHalf * spacing], the range the
    Z slice is reset to; and the frames are placed symmetrically. *)
Theorem calcZPosition_order (totalFrames : Z) (spacing : Q) :
  (0 <= spacing)%Q ->
  (forall l, 0 <= l < totalFrames ->
     (- (calcHalf totalFrames * spacing) <= calcZPosition l totalFrames spacing
      <= calcHalf totalFrames * spacing)%Q)
  /\ (forall l1 l2, (0 < spacing)%Q -> l1 < l2 ->
        (calcZPosition l1 totalFrames spacing
         < calcZPosition l2 totalFrames spacing)%Q)
  /\ (forall l,
        (calcZPosition (totalFrames - 1 - l) totalFrames spacing
         == - calcZPosition l totalFrames spacing)%Q).
Proof.
  intros Hs. unfold calcZPosition, calcHalf. halves. repeat split.
  - destruct (inject_Z_bounds l totalFrames H) as [H0 H1]. nra.
  - destruct (inject_Z_bounds l totalFrames H) as [H0 H1]. nra.
  - intros l1 l2 Hpos Hl.
    assert (inject_Z l1 < inject_Z l2)%Q by (rewrite <- Zlt_Qlt; exact Hl).
    nra.
  - intros l. rewrite !inject_Z_sub. change (inject_Z 1) with 1%Q. lra.
Qed.

Lemma calcZPosition_order_witness :
  (0 <= 2)%Q
  /\ (forall l, 0 <= l < 60 ->
        (- (calcHalf 60 * 2) <= calcZPosition l 60 2 <= calcHalf 60 * 2)%Q)
  /\ (forall l1 l2, (0 < 2)%Q -> l1 < l2 ->
        (calcZPosition l1 60 2 < calcZPosition l2 60 2)%Q)
  /\ (forall l, (calcZPosition (60 - 1 - l) 60 2 == - calcZPosition l 60 2)%Q).
Proof.
  split; [lra|]. apply (calcZPosition_order 60 2). lra.
Defined.

(** ** The vertex shader *)

(** X7. The shader samples the centre of the texel in column
    [pixel mod width] and row [frame * height + pixel / width] of the
    [(width, height * frames)] texture, and the bytes of that texel start at
    [calcColorDataIndex frame pixel width height], which is also the index
    of the flat layout that the exporters read. *)
Theorem shader_texel (width height frames frame pixel : Z) :
  0 < width -> 0 < height -> 0 < frames ->
  0 <= frame < frames -> 0 <= pixel < width * height ->
  let col := pixel mod width in
  let row := frame * height + pixel / width in
  let uv := Shader.texCoord frame pixel width height frames in
  (fst uv * inject_Z width == inject_Z col + (1 # 2))%Q
  /\ (snd uv * inject_Z (height * frames) == inject_Z row + (1 # 2))%Q
  /\ 0 <= col < width
  /\ 0 <= row < height * frames
  /\ (row * width + col) * 4
     = calcColorDataIndex frame pixel width (Some height)
  /\ (row * width + col) * 4
     = calcColorDataIndex frame pixel (width * height) None.
Proof.
  intros Hw Hh Hfr Hf Hp col row uv.
  pose proof (Z.div_mod pixel width ltac:(lia)) as E.
  pose proof (Z.mod_pos_bound pixel width Hw) as B.
  assert (Hq : 0 <= pixel / width < height).
  { split; [apply Z.div_pos; lia|]. apply Z.div_lt_upper_bound; lia. }
  assert (Hwq : ~ (inject_Z width == 0)%Q).
  { intros Ez. change 0%Q with (inject_Z 0) in Ez.
    apply (proj1 (inject_Z_injective _ _)) in Ez. lia. }
  assert (Hhq : ~ (inject_Z height == 0)%Q).
  { intros Ez. change 0%Q with (inject_Z 0) in Ez.
    apply (proj1 (inject_Z_injective _ _)) in Ez. lia. }
  assert (Hfq : ~ (inject_Z frames == 0)%Q).
  { intros Ez. change 0%Q with (inject_Z 0) in Ez.
    apply (proj1 (inject_Z_injective _ _)) in Ez. lia. }
  unfold uv, Shader.texCoord. cbn [fst snd].
  rewrite glslMod_mod by lia. fold col.
  split; [field; exact Hwq|].
  split.
  { unfold row. rewrite inject_Z_plus, !inject_Z_mult. field. split; assumption. }
  split; [exact B|].
  split; [unfold row; nia|].
  unfold calcColorDataIndex, JS.floorDiv. rewrite rem_nonneg_mod by lia.
  unfold row, col. split; [reflexivity|].
  set (q := pixel / width) in *. set (m := pixel mod width) in *. nia.
Qed.

Lemma shader_texel_witness :
  let col := 2890 mod 144 in
  let row := 5 * 255 + 2890 / 144 in
  let uv := Shader.texCoord 5 2890 144 255 60 in
  (fst uv * inject_Z 144 == inject_Z col + (1 # 2))%Q
  /\ (snd uv * inject_Z (255 * 60) == inject_Z row + (1 # 2))%Q
  /\ 0 <= col < 144
  /\ 0 <= row < 255 * 60
  /\ (row * 144 + col) * 4 = calcColorDataIndex 5 2890 144 (Some 255)
  /\ (row * 144 + col) * 4 = calcColorDataIndex 5 2890 (144 * 255) None.
Proof. apply (shader_texel 144 255 60 5 2890); lia. Defined.

(** ** utils/plyExporter.ts *)

(** X8. [createPLYDataBinary] throws exactly when the product of the
    dimensions is negative (the length of the [ArrayBuffer] is); otherwise
    it returns the header followed by [totalPoints * 15] bytes, whatever the
    signs of the single dimensions and whatever [colorData] holds. *)
Theorem createPLYDataBinary_throws_iff_negative
    (float32LE : Q -> list byte) (d : PLYExportData) :
  (forall v, length (float32LE v) = 4%nat) ->
  let totalPoints := calcTotalPoints (width d) (height d) (frames d) in
  (totalPoints < 0 -> createPLYDataBinary float32LE d = None)
  /\ (0 <= totalPoints ->
        exists data,
          createPLYDataBinary float32LE d
          = Some (textEncode (createPLYHeaderBinary totalPoints) ++ data)
          /\ Z.of_nat (length data) = totalPoints * 15).
Proof.
  intros Hf32 N. split.
  - intros HN. unfold createPLYDataBinary, binaryData, newBuffer. fold N.
    destruct (Z.leb_spec 0 (N * BYTES_PER_POINT)) as [Hle|_];
      [unfold BYTES_PER_POINT in Hle; lia | reflexivity].
  - intros HN. eexists. split.
    + rewrite (createPLYDataBinary_grid float32LE Hf32 d) by exact HN.
      fold N. reflexivity.
    + set (ps := Loops.grid (frames d) (height d) (width d) (pointOf d)).
      assert (Hps : Z.of_nat (length ps) <= N).
      { unfold ps, N, calcTotalPoints in *.
        etransitivity; [apply length_grid_le|]; lia. }
      rewrite length_app, length_replicate.
      rewrite (length_concat_uniform _ 15) by now apply encodings_uniform.
      rewrite length_fmap. lia.
Qed.

Lemma createPLYDataBinary_throws_iff_negative_witness :
  let float32LE := Reference.float32LE in
  let d := Examples.exampleData in
  (forall v, length (float32LE v) = 4%nat)
  /\ (let totalPoints := calcTotalPoints (width d) (height d) (frames d) in
      (totalPoints < 0 -> createPLYDataBinary float32LE d = None)
      /\ (0 <= totalPoints ->
            exists data,
              createPLYDataBinary float32LE d
              = Some (textEncode (createPLYHeaderBinary totalPoints) ++ data)
              /\ Z.of_nat (length data) = totalPoints * 15)).
Proof.
  split; [reflexivity|].
  apply (createPLYDataBinary_throws_iff_negative Reference.float32LE
           Examples.exampleData).
  reflexivity.
Defined.

(** X9. For every input the ASCII export has as many data lines as the
    loops have iterations, the product of the dimensions with the negative
    ones counted as zero; this is the vertex count of the header exactly
    when the count is zero or all three dimensions are positive. *)
Theorem asciiLines_count (numberToString : Q -> string) (d : PLYExportData) :
  let lines := Z.of_nat (length (asciiLines numberToString d)) in
  lines = Z.max 0 (frames d) * Z.max 0 (height d) * Z.max 0 (width d)
  /\ (lines = calcTotalPoints (width d) (height d) (frames d)
      <-> calcTotalPoints (width d) (height d) (frames d) = 0
          \/ (0 < width d /\ 0 < height d /\ 0 < frames d)).
Proof.
  intros lines.
  assert (E : lines = Z.max 0 (frames d) * Z.max 0 (height d) * Z.max 0 (width d)).
  { unfold lines. rewrite asciiLines_grid, length_fmap, length_grid. lia. }
  split; [exact E|]. rewrite E. unfold calcTotalPoints.
  destruct (Z.lt_trichotomy (width d) 0) as [Hw|[Hw|Hw]];
    destruct (Z.lt_trichotomy (height d) 0) as [Hh|[Hh|Hh]];
    destruct (Z.lt_trichotomy (frames d) 0) as [Hf|[Hf|Hf]];
    split; intros Hyp; try nia.
Qed.

(** X10. Outside of the valid inputs the two exporters part: where the
    colour index of a point is past the end of [colorData], the ASCII line
    ends in [undefined undefined undefined] while the binary record ends
    in three zero bytes. *)
Theorem colour_read_past_the_end
    (numberToString : Q -> string) (float32LE : Q -> list byte)
    (d : PLYExportData) (f y x : Z) :
  (forall v, length (float32LE v) = 4%nat) ->
  0 <= f < frames d -> 0 <= y < height d -> 0 <= x < width d ->
  Z.of_nat (length (colorData d))
    <= calcColorDataIndex (calcActualFrameIndex f (writeIndex d) (frames d))
         (calcPixelIndex x y (width d)) (width d * height d) None ->
  let i := Z.to_nat ((f * height d + y) * width d + x) in
  let xPos := (inject_Z x - calcHalf (width d))%Q in
  let yPos := (calcHalf (height d) - inject_Z y)%Q in
  let zPos := calcZPosition f (frames d) (spacing d) in
  asciiLines numberToString d !! i
  = Some (numberToString xPos ++ " " ++ numberToString yPos ++ " "
          ++ numberToString zPos ++ " undefined undefined undefined")%string
  /\ exists data,
       createPLYDataBinary float32LE d
       = Some (textEncode (createPLYHeaderBinary
                 (calcTotalPoints (width d) (height d) (frames d))) ++ data)
       /\ take 15 (drop (15 * i) data)
          = float32LE xPos ++ float32LE yPos ++ float32LE zPos
            ++ [x00; x00; x00].
Proof.
  intros Hf32 Hf Hy Hx Hc i xPos yPos zPos.
  set (c := calcColorDataIndex _ _ _ None) in Hc.
  assert (Hnone : forall j, 0 <= j -> u8get (colorData d) (c + j) = None).
  { intros j Hj. unfold u8get.
    destruct (Z.leb_spec 0 (c + j)); [|reflexivity].
    apply lookup_ge_None. lia. }
  assert (Hr : red (pointOf d f y x) = None)
    by (unfold pointOf; cbn [red]; fold c; rewrite <- (Z.add_0_r c); apply Hnone; lia).
  assert (Hg : green (pointOf d f y x) = None)
    by (unfold pointOf; cbn [green]; fold c; apply Hnone; lia).
  assert (Hb : blue (pointOf d f y x) = None)
    by (unfold pointOf; cbn [blue]; fold c; apply Hnone; lia).
  split.
  - rewrite asciiLines_grid, list_lookup_fmap. unfold i.
    rewrite lookup_grid by assumption. cbn [fmap option_fmap option_map].
    unfold formatLine. rewrite Hr, Hg, Hb. reflexivity.
  - eexists. split.
    + apply (createPLYDataBinary_grid float32LE Hf32 d).
      unfold calcTotalPoints.
      apply Z.mul_nonneg_nonneg; [apply Z.mul_nonneg_nonneg|]; lia.
    + set (ps := Loops.grid (frames d) (height d) (width d) (pointOf d)).
      assert (Hi : ps !! i = Some (pointOf d f y x))
        by (unfold ps, i; now apply lookup_grid).
      pose proof (lookup_lt_Some _ _ _ Hi) as Hlt.
      assert (Hlen : length (concat (encodePoint float32LE <$> ps))
                     = (length ps * 15)%nat).
      { rewrite (length_concat_uniform _ 15) by now apply encodings_uniform.
        now rewrite length_fmap. }
      rewrite drop_app_le by lia.
      rewrite take_app_le by (rewrite length_drop; lia).
      rewrite (Nat.mul_comm 15 i).
      rewrite (take_drop_concat_uniform _ 15 i (encodePoint float32LE (pointOf d f y x))).
      * unfold encodePoint. rewrite Hr, Hg, Hb. reflexivity.
      * now apply encodings_uniform.
      * now rewrite list_lookup_fmap, Hi.
Qed.

Lemma colour_read_past_the_end_witness :
  let numberToString := Reference.numberToString in
  let float32LE := Reference.float32LE in
  let d := {| colorData := [x0a; x0b; x0c; xff]; width := 2; height := 1;
              frames := 1; spacing := 2%Q; writeIndex := 0 |} in
  let f := 0 in
  let y := 0 in
  let x := 1 in
  ((forall v, length (float32LE v) = 4%nat)
   /\ Z.of_nat (length (colorData d))
      <= calcColorDataIndex (calcActualFrameIndex f (writeIndex d) (frames d))
           (calcPixelIndex x y (width d)) (width d * height d) None)
  /\ (
  let i := Z.to_nat ((f * height d + y) * width d + x) in
  let xPos := (inject_Z x - calcHalf (width d))%Q in
  let yPos := (calcHalf (height d) - inject_Z y)%Q in
  let zPos := calcZPosition f (frames d) (spacing d) in
  asciiLines numberToString d !! i
  = Some (numberToString xPos ++ " " ++ numberToString yPos ++ " "
          ++ numberToString zPos ++ " undefined undefined undefined")%string
  /\ exists data,
       createPLYDataBinary float32LE d
       = Some (textEncode (createPLYHeaderBinary
                 (calcTotalPoints (width d) (height d) (frames d))) ++ data)
       /\ take 15 (drop (15 * i) data)
          = float32LE xPos ++ float32LE yPos ++ float32LE zPos
            ++ [x00; x00; x00]).
Proof.
  split; [split; [reflexivity | vm_compute; intros E; discriminate E]|].
  apply (colour_read_past_the_end Reference.numberToString Reference.float32LE
           {| colorData := [x0a; x0b; x0c; xff]; width := 2; height := 1;
              frames := 1; spacing := 2%Q; writeIndex := 0 |} 0 0 1);
    [reflexivity | cbn; lia | cbn; lia | cbn; lia
     | vm_compute; intros E; discriminate E].
Defined.

Lemma textEncode_app (a b : string) :
  textEncode (a ++ b) = textEncode a ++ textEncode b.
Proof.
  unfold textEncode, list_byte_of_string.
  induction a as [|c a IH]; cbn; [reflexivity | now rewrite IH].
Qed.

Lemma length_textEncode (s : string) : length (textEncode s) = String.length s.
Proof.
  unfold textEncode, list_byte_of_string.
  induction s as [|c s IH]; cbn; [reflexivity | now rewrite IH].
Qed.

Lemma string_length_app (a b : string) :
  String.length (a ++ b) = (String.length a + String.length b)%nat.
Proof. induction a as [|c a IH]; cbn; [reflexivity | now rewrite IH]. Qed.

Lemma digits_are_ascii (d : Decimal.uint) :
  Forall (fun b => (Byte.to_N b < 128)%N)
         (textEncode (NilEmpty.string_of_uint d)).
Proof.
  induction d; cbn [NilEmpty.string_of_uint]; try (constructor; [reflexivity | exact IHd]).
  constructor.
Qed.

Lemma showInt_is_ascii (n : Z) :
  Forall (fun b => (Byte.to_N b < 128)%N) (textEncode (showInt n)).
Proof.
  unfold showInt, NilZero.string_of_int.
  destruct (Z.to_int n) as [d|d]; unfold NilZero.string_of_uint.
  - destruct d; try apply digits_are_ascii. repeat constructor.
  - constructor; [reflexivity|].
    destruct d; try apply digits_are_ascii. repeat constructor.
Qed.

(** X11. The PLY headers hold ASCII characters only, so that their
    encoding has one byte per character: the binary header takes 174 bytes
    plus one per character of the vertex count, the ASCII header 159 plus
    the same. *)
Theorem header_bytes (totalPoints : Z) :
  Forall (fun b => (Byte.to_N b < 128)%N)
         (textEncode (createPLYHeaderBinary totalPoints))
  /\ Forall (fun b => (Byte.to_N b < 128)%N)
            (textEncode (createPLYHeaderASCII totalPoints))
  /\ length (textEncode (createPLYHeaderBinary totalPoints))
     = (174 + String.length (showInt totalPoints))%nat
  /\ length (textEncode (createPLYHeaderASCII totalPoints))
     = (159 + String.length (showInt totalPoints))%nat.
Proof.
  unfold createPLYHeaderBinary, createPLYHeaderASCII.
  cbn [join String.concat]. repeat split.
  1, 2: rewrite !textEncode_app;
    repeat (apply Forall_app; split);
    first [apply showInt_is_ascii | vm_compute; repeat constructor].
  all: rewrite length_textEncode, !string_length_app; cbn [String.length LF]; lia.
Qed.

(** ** page.tsx: the geometry of the point cloud *)

Lemma taSet_at {A} (pre rest : list A) (i : Z) (j : nat) (v : A) :
  i = Z.of_nat (length pre) + Z.of_nat j ->
  taSet (pre ++ rest) i v = pre ++ <[j := v]> rest.
Proof.
  intros ->. unfold taSet.
  destruct (Z.leb_spec 0 (Z.of_nat (length pre) + Z.of_nat j)); [|lia].
  replace (Z.to_nat (Z.of_nat (length pre) + Z.of_nat j))
    with (length pre + j)%nat by lia.
  apply insert_app_r.
Qed.

Section GeometryFacts.

Variables (xHalf yHalf zHalf : Q) (W : Z).

(** One pass of the innermost loop body of the fill loops, for the cell
    [(f, y, x)]. *)
Let fillStep (st : list Q * list Z * list Z * Z) (t : Z * Z * Z) :=
  let '(f, y, x) := t in
  let zVal := (inject_Z f - zHalf)%Q in
  let yVal := (yHalf - inject_Z y)%Q in
  let '(positions, frameIndices, pixelIndices, i) := st in
  let idx := i * 3 in
  let positions := taSet positions idx (inject_Z x - xHalf)%Q in
  let positions := taSet positions (idx + 1) yVal in
  let positions := taSet positions (idx + 2) zVal in
  let frameIndices := taSet frameIndices i f in
  let pixelIndices := taSet pixelIndices i (y * W + x) in
  (positions, frameIndices, pixelIndices, i + 1).

Let position3 (t : Z * Z * Z) : list Q :=
  let '(f, y, x) := t in
  [(inject_Z x - xHalf)%Q; (yHalf - inject_Z y)%Q; (inject_Z f - zHalf)%Q].

Lemma fill_fold (ts : list (Z * Z * Z)) :
  forall (P : list Q) (FI PI : list Z) (m : nat),
    length P = (length FI * 3)%nat -> length PI = length FI ->
    (length ts <= m)%nat ->
    foldl fillStep
      (P ++ replicate (m * 3) 0%Q, FI ++ replicate m 0, PI ++ replicate m 0,
       Z.of_nat (length FI)) ts
    = (P ++ concat (position3 <$> ts) ++ replicate ((m - length ts) * 3) 0%Q,
       FI ++ ((fun t => t.1.1) <$> ts) ++ replicate (m - length ts) 0,
       PI ++ ((fun t => t.1.2 * W + t.2) <$> ts) ++ replicate (m - length ts) 0,
       Z.of_nat (length FI + length ts)).
Proof.
  induction ts as [|[[f y] x] ts IH]; intros P FI PI m HP HPI Hm.
  - cbn. rewrite Nat.sub_0_r, Nat.add_0_r. reflexivity.
  - cbn [length] in Hm. destruct m as [|m]; [lia|].
    cbn [foldl fillStep replicate Nat.mul Nat.add].
    rewrite (taSet_at P _ _ 0) by lia.
    rewrite (taSet_at P _ _ 1) by lia.
    rewrite (taSet_at P _ _ 2) by lia.
    rewrite (taSet_at FI _ _ 0) by lia.
    rewrite (taSet_at PI _ _ 0) by lia.
    cbn [insert list_insert].
    specialize (IH (P ++ [(inject_Z x - xHalf)%Q; (yHalf - inject_Z y)%Q;
                          (inject_Z f - zHalf)%Q])
                   (FI ++ [f]) (PI ++ [y * W + x]) m).
    rewrite !length_app in IH. cbn [length] in IH.
    rewrite <- !app_assoc in IH. cbn [app] in IH.
    replace (Z.of_nat (length FI) + 1) with (Z.of_nat (length FI + 1)) by lia.
    rewrite IH by lia.
    cbn [fmap list_fmap concat position3 length fst snd Nat.sub].
    rewrite <- !app_assoc. cbn [app].
    now replace (length FI + 1 + length ts)%nat
      with (length FI + S (length ts))%nat by lia.
Qed.

End GeometryFacts.

Lemma float32Exact_int (v : Q) (z : Z) :
  (v == inject_Z z)%Q -> Z.abs z < 2 ^ 24 -> float32Exact v.
Proof.
  intros E Hz. exists z, 0. split; [exact Hz|]. split; [lia|].
  change (2 ^ 0)%Q with 1%Q. rewrite E. ring.
Qed.

Lemma float32Exact_half (v : Q) (k : Z) :
  (v == inject_Z k / 2)%Q -> Z.abs k < 2 ^ 24 -> float32Exact v.
Proof.
  intros E Hk. exists k, (-1). split; [exact Hk|]. split; [lia|].
  change (2 ^ (-1))%Q with (1 # 2)%Q. rewrite E. halves. ring.
Qed.

Lemma float32Exact_centred (x n : Z) :
  0 <= x < n -> n <= 2 ^ 24 ->
  float32Exact (inject_Z x - calcHalf n) /\ float32Exact (calcHalf n - inject_Z x).
Proof.
  intros Hx Hn. split.
  - apply (float32Exact_half _ (2 * x - n + 1)); [|lia].
    unfold calcHalf. rewrite inject_Z_plus, inject_Z_sub, inject_Z_mult.
    change (inject_Z 1) with 1%Q. change (inject_Z 2) with 2%Q. halves. ring.
  - apply (float32Exact_half _ (n - 1 - 2 * x)); [|lia].
    unfold calcHalf. rewrite !inject_Z_sub, inject_Z_mult.
    change (inject_Z 1) with 1%Q. change (inject_Z 2) with 2%Q. halves. ring.
Qed.

(** X12. After the fill loops of [initLivePoints], for dimensions that are
    not negative with [targetW * targetH] and [targetFrames] at most
    [2^24]: the point number [(f * targetH + y) * targetW + x] of the
    geometry has the position [calcPoint3D x y f], the frame attribute [f]
    and the pixel attribute [calcPixelIndex x y targetW]; each of these
    numbers is one that a [Float32Array] holds unrounded; and the three
    arrays are filled from end to end. *)
Theorem fillGeometry_points (sampling : Sampling) :
  let W := targetW sampling in
  let H := targetH sampling in
  let T := targetFrames sampling in
  let geometry := fillGeometry sampling (calcTotalPoints W H T) in
  0 <= W -> 0 <= H -> 0 <= T ->
  W * H <= 2 ^ 24 -> T <= 2 ^ 24 ->
  Z.of_nat (length (positions geometry)) = calcTotalPoints W H T * 3
  /\ Z.of_nat (length (frameIndices geometry)) = calcTotalPoints W H T
  /\ Z.of_nat (length (pixelIndices geometry)) = calcTotalPoints W H T
  /\ forall f y x, 0 <= f < T -> 0 <= y < H -> 0 <= x < W ->
       let i := Z.to_nat ((f * H + y) * W + x) in
       let p := calcPoint3D x y f W H T in
       (positions geometry !! (i * 3)%nat = Some (px p)
        /\ positions geometry !! (i * 3 + 1)%nat = Some (py p)
        /\ positions geometry !! (i * 3 + 2)%nat = Some (pz p)
        /\ frameIndices geometry !! i = Some f
        /\ pixelIndices geometry !! i = Some (calcPixelIndex x y W))
       /\ (float32Exact (px p) /\ float32Exact (py p) /\ float32Exact (pz p)
           /\ float32Exact (inject_Z f)
           /\ float32Exact (inject_Z (calcPixelIndex x y W))).
Proof.
  intros W H T geometry HW HH HT HWH HT24.
  set (N := calcTotalPoints W H T) in *.
  set (ts := Loops.grid T H W (fun f y x => (f, y, x))).
  assert (Hts : Z.of_nat (length ts) = N)
    by (unfold ts, N, calcTotalPoints; rewrite length_grid_Z by lia; lia).
  set (xHalf := ((inject_Z W - 1) / 2)%Q).
  set (yHalf := ((inject_Z H - 1) / 2)%Q).
  set (zHalf := ((inject_Z T - 1) / 2)%Q).
  set (pos3 := fun t : Z * Z * Z =>
                 let '(f, y, x) := t in
                 [(inject_Z x - xHalf)%Q; (yHalf - inject_Z y)%Q;
                  (inject_Z f - zHalf)%Q]).
  assert (Eg : geometry
               = {| positions := concat (pos3 <$> ts);
                    frameIndices := (fun t => t.1.1) <$> ts;
                    pixelIndices := (fun t => t.1.2 * W + t.2) <$> ts |}).
  { unfold geometry, fillGeometry. fold W H T xHalf yHalf zHalf.
    pose proof (fill_fold xHalf yHalf zHalf W ts [] [] [] (Z.to_nat N)
                  eq_refl eq_refl ltac:(lia)) as E.
    cbn [app length] in E. change (Z.of_nat 0) with 0 in E.
    replace (Z.to_nat (N * 3)) with (Z.to_nat N * 3)%nat by lia.
    etransitivity;
      [apply (f_equal (fun st : list Q * list Z * list Z * Z =>
                let '(positions, frameIndices, pixelIndices, _) := st in
                {| positions := positions; frameIndices := frameIndices;
                   pixelIndices := pixelIndices |}));
       etransitivity; [|exact E];
       exact (foldl_grid _ (fun f y x => (f, y, x)) T H W _)|].
    replace (Z.to_nat N - length ts)%nat with 0%nat by lia.
    cbn [replicate Nat.mul]. now rewrite !app_nil_r. }
  assert (Hpos : Forall (fun l => length l = 3%nat) (pos3 <$> ts)).
  { apply Forall_fmap, Forall_forall. intros [[f y] x] _. reflexivity. }
  rewrite Eg. cbn [positions frameIndices pixelIndices].
  split; [rewrite (length_concat_uniform _ 3), length_fmap by exact Hpos; lia|].
  split; [rewrite length_fmap; lia|].
  split; [rewrite length_fmap; lia|].
  intros f y x Hf Hy Hx. cbv zeta.
  split.
  - set (i := Z.to_nat ((f * H + y) * W + x)).
    assert (Hi : ts !! i = Some (f, y, x))
      by (unfold ts, i; now apply (lookup_grid (fun f y x => (f, y, x)))).
    assert (Hl : forall j, (j < 3)%nat ->
              concat (pos3 <$> ts) !! (i * 3 + j)%nat = pos3 (f, y, x) !! j).
    { intros j Hj. rewrite lookup_concat_uniform by assumption.
      now rewrite list_lookup_fmap, Hi. }
    pose proof (Hl 0%nat ltac:(lia)) as Hl0. rewrite Nat.add_0_r in Hl0.
    rewrite Hl0, !Hl by lia.
    rewrite !list_lookup_fmap, Hi. repeat split.
  - assert (HW24 : W <= 2 ^ 24) by nia.
    assert (HH24 : H <= 2 ^ 24) by nia.
    unfold calcPoint3D, calcPixelIndex. cbn [px py pz].
    split; [apply (float32Exact_centred x W Hx HW24)|].
    split; [apply (float32Exact_centred y H Hy HH24)|].
    split; [apply (float32Exact_centred f T Hf HT24)|].
    split; (apply (float32Exact_int _ _ (Qeq_refl _)); nia).
Qed.

Lemma fillGeometry_points_witness :
  let sampling := Examples.smallSampling in
  let W := targetW sampling in
  let H := targetH sampling in
  let T := targetFrames sampling in
  let geometry := fillGeometry sampling (calcTotalPoints W H T) in
  (0 <= W /\ 0 <= H /\ 0 <= T /\ W * H <= 2 ^ 24 /\ T <= 2 ^ 24)
  /\ Z.of_nat (length (positions geometry)) = calcTotalPoints W H T * 3
  /\ Z.of_nat (length (frameIndices geometry)) = calcTotalPoints W H T
  /\ Z.of_nat (length (pixelIndices geometry)) = calcTotalPoints W H T
  /\ forall f y x, 0 <= f < T -> 0 <= y < H -> 0 <= x < W ->
       let i := Z.to_nat ((f * H + y) * W + x) in
       let p := calcPoint3D x y f W H T in
       (positions geometry !! (i * 3)%nat = Some (px p)
        /\ positions geometry !! (i * 3 + 1)%nat = Some (py p)
        /\ positions geometry !! (i * 3 + 2)%nat = Some (pz p)
        /\ frameIndices geometry !! i = Some f
        /\ pixelIndices geometry !! i = Some (calcPixelIndex x y W))
       /\ (float32Exact (px p) /\ float32Exact (py p) /\ float32Exact (pz p)
           /\ float32Exact (inject_Z f)
           /\ float32Exact (inject_Z (calcPixelIndex x y W))).
Proof.
  split; [cbn; lia|].
  apply (fillGeometry_points Examples.smallSampling); cbn; lia.
Defined.

(** ** page.tsx: the two layouts of the ring *)

Lemma rows_flat (W : Z) (h : nat) :
  0 <= W ->
  concat ((fun y => (fun x => y * W + x) <$> JS.range W) <$> JS.range (Z.of_nat h))
  = JS.range (Z.of_nat h * W).
Proof.
  intros HW. unfold JS.range. induction h as [|h IH].
  - reflexivity.
  - rewrite seqZ_S, fmap_app, concat_app, IH. cbn [fmap list_fmap concat].
    rewrite app_nil_r, Z.add_0_l.
    replace (Z.of_nat (S h) * W) with (Z.of_nat h * W + W) by lia.
    rewrite seqZ_app by nia. f_equal.
    change ((fun x => Z.of_nat h * W + x) <$> seqZ 0 W)
      with (Z.add (Z.of_nat h * W) <$> seqZ 0 W).
    now rewrite fmap_add_seqZ, Z.add_0_r, Z.add_0_l.
Qed.

(** The copy loop over rows and columns stores what the flat one does. *)
Lemma tiled_copy_is_flat (data cd : list byte) (writeIndex W H : Z) :
  0 <= W -> 0 <= H ->
  foldl (fun colorData y =>
    foldl (fun colorData x =>
      let srcBase := (y * W + x) * 4 in
      let dstBase := ((writeIndex * H + y) * W + x) * 4 in
      let colorData := u8set colorData dstBase (toUint8 (u8get data srcBase)) in
      let colorData :=
        u8set colorData (dstBase + 1) (toUint8 (u8get data (srcBase + 1))) in
      let colorData :=
        u8set colorData (dstBase + 2) (toUint8 (u8get data (srcBase + 2))) in
      u8set colorData (dstBase + 3) xff)
      colorData (JS.range W))
    cd (JS.range H)
  = foldl (fun colorData p =>
      let srcBase := p * 4 in
      let dstBase := writeIndex * (W * H) * 4 + p * 4 in
      let colorData := u8set colorData dstBase (toUint8 (u8get data srcBase)) in
      let colorData :=
        u8set colorData (dstBase + 1) (toUint8 (u8get data (srcBase + 1))) in
      let colorData :=
        u8set colorData (dstBase + 2) (toUint8 (u8get data (srcBase + 2))) in
      u8set colorData (dstBase + 3) xff)
      cd (JS.range (W * H)).
Proof.
  intros HW HH.
  set (flat := fun (colorData : list byte) (p : Z) =>
    let srcBase := p * 4 in
    let dstBase := writeIndex * (W * H) * 4 + p * 4 in
    let colorData := u8set colorData dstBase (toUint8 (u8get data srcBase)) in
    let colorData :=
      u8set colorData (dstBase + 1) (toUint8 (u8get data (srcBase + 1))) in
    let colorData :=
      u8set colorData (dstBase + 2) (toUint8 (u8get data (srcBase + 2))) in
    u8set colorData (dstBase + 3) xff).
  transitivity
    (foldl (fun colorData y =>
       foldl (fun colorData x => flat colorData (y * W + x)) colorData (JS.range W))
       cd (JS.range H)).
  { apply foldl_ext_in. intros b y. apply foldl_ext_in. intros b' x.
    unfold flat. cbv zeta.
    now replace (((writeIndex * H + y) * W + x) * 4)
      with (writeIndex * (W * H) * 4 + (y * W + x) * 4) by lia. }
  transitivity
    (foldl flat cd
       (concat ((fun y => (fun x => y * W + x) <$> JS.range W) <$> JS.range H))).
  { rewrite <- foldl_concat, foldl_fmap.
    apply foldl_ext_in. intros b y. now rewrite foldl_fmap. }
  rewrite <- (Z2Nat.id H) at 1 by exact HH.
  rewrite rows_flat by exact HW.
  now rewrite Z2Nat.id, Z.mul_comm by exact HH.
Qed.

(** X13. The page with the [(width, height * frames)] texture is the
    same state machine as the page with the flat buffer: [initLivePoints]
    creates the same buffer and, for dimensions that are not negative,
    [processFrame] stores the same bytes, so that whole runs agree. *)
Theorem tiled_page_is_flat_page (sampling : Sampling) :
  0 <= targetW sampling -> 0 <= targetH sampling ->
  (forall env r,
     TiledPage.initLivePoints sampling env r = initLivePoints sampling env r)
  /\ (forall env data r,
        TiledPage.processFrame sampling env data r
        = processFrame sampling env data r)
  /\ (forall env r0 captured,
        TiledPage.run sampling env r0 captured = run sampling env r0 captured).
Proof.
  intros HW HH.
  assert (Hinit : forall env r,
            TiledPage.initLivePoints sampling env r = initLivePoints sampling env r).
  { intros env r. unfold TiledPage.initLivePoints, initLivePoints. cbv zeta.
    now rewrite (Z.mul_assoc (targetW sampling) (targetH sampling)
                   (targetFrames sampling)). }
  assert (Hstep : forall env data r,
            TiledPage.processFrame sampling env data r
            = processFrame sampling env data r).
  { intros env data r. unfold TiledPage.processFrame, processFrame.
    destruct (capturingRef r); [|reflexivity]. cbn [negb].
    destruct (videoReady env), (ctxRef r), (colorDataRef r) as [cd|],
      (colorTextureRef r), (materialRef r); try reflexivity.
    pose proof (tiled_copy_is_flat data cd (writeIndexRef r)
                  (targetW sampling) (targetH sampling) HW HH) as E.
    cbv zeta in E |- *. now rewrite E. }
  split; [exact Hinit|]. split; [exact Hstep|].
  intros env r0 captured. unfold TiledPage.run, run.
  assert (Hstart : TiledPage.startCapture sampling env r0
                   = startCapture sampling env r0)
    by (unfold TiledPage.startCapture, startCapture; now rewrite Hinit).
  rewrite Hstart. apply foldl_ext_in. intros r data. apply Hstep.
Qed.

Lemma tiled_page_is_flat_page_witness :
  let sampling := Examples.smallSampling in
  (0 <= targetW sampling /\ 0 <= targetH sampling)
  /\ (forall env r,
        TiledPage.initLivePoints sampling env r = initLivePoints sampling env r)
  /\ (forall env data r,
        TiledPage.processFrame sampling env data r
        = processFrame sampling env data r)
  /\ (forall env r0 captured,
        TiledPage.run sampling env r0 captured = run sampling env r0 captured).
Proof.
  split; [cbn; lia|].
  apply (tiled_page_is_flat_page Examples.smallSampling); cbn; lia.
Defined.

(** ** page.tsx: initialisation *)

(** X15. A failed [initLivePoints] leaves the point cloud and the ring as
    they were (buffer, texture, material, write index, frame count); a
    successful one throws the captured frames away: the buffer is new and
    all zero, of [targetW * targetH * targetFrames * 4] bytes, and the write
    index, the uniform and the frame count are 0 again. *)
Theorem initLivePoints_outcome (sampling : Sampling) (env : Env) (r : State) :
  let res := initLivePoints sampling env r in
  (fst res = false ->
     colorDataRef (snd res) = colorDataRef r
     /\ colorTextureRef (snd res) = colorTextureRef r
     /\ materialRef (snd res) = materialRef r
     /\ pointsRef (snd res) = pointsRef r
     /\ writeIndexRef (snd res) = writeIndexRef r
     /\ frameCountRef (snd res) = frameCountRef r
     /\ ctxRef (snd res) = ctxRef r
     /\ capturingRef (snd res) = capturingRef r)
  /\ (fst res = true ->
        colorDataRef (snd res)
        = Some (replicate
                  (Z.to_nat (targetW sampling * targetH sampling
                             * targetFrames sampling * 4)) x00)
        /\ writeIndexRef (snd res) = 0
        /\ materialRef (snd res) = Some 0
        /\ frameCountRef (snd res) = 0
        /\ is_Some (pointsRef (snd res))
        /\ capturingRef (snd res) = capturingRef r).
Proof.
  unfold initLivePoints.
  destruct (sceneReady env), (hiddenCanvasReady env); cbn [negb orb fst snd];
    try (split; [intros _; repeat split | discriminate]).
  destruct (calcTotalPoints _ _ _ <=? 0); cbn [fst snd];
    [split; [intros _; repeat split | discriminate]|].
  destruct (contextAvailable env); cbn [negb fst snd];
    [split; [discriminate | intros _; repeat split; eauto]
    | split; [intros _; repeat split | discriminate]].
Qed.

(** ** page.tsx: what a run keeps in step *)

Lemma processFrame_counters (sampling : Sampling) (data : list byte)
    (r : State) (cd : list byte) :
  capturing r cd ->
  let r' := processFrame sampling readyEnv data r in
  materialRef r' = Some (writeIndexRef r')
  /\ colorTextureRef r' = Some true
  /\ frameCountRef r' = frameCountRef r + 1
  /\ pointsRef r' = pointsRef r
  /\ allocations r' = allocations r
  /\ status r' = (if JS.rem (frameCountRef r + 1) 30 =? 0
                  then StatusLive (frameCountRef r + 1) else status r).
Proof.
  intros (Hcap & Hctx & Hcd & [tex Htex] & [mat Hmat]) r'.
  subst r'. unfold processFrame. rewrite Hcap, Hctx, Hcd, Htex, Hmat.
  cbn [negb videoReady readyEnv]. repeat split.
Qed.

Lemma startCapture_counters (sampling : Sampling) (r0 : State) :
  capturingRef r0 = false ->
  0 < targetW sampling -> 0 < targetH sampling -> 0 < targetFrames sampling ->
  let r := startCapture sampling readyEnv r0 in
  materialRef r = Some 0 /\ colorTextureRef r = Some true
  /\ frameCountRef r = 0 /\ is_Some (pointsRef r) /\ status r = StatusStarted
  /\ allocations r
     = allocations r0
       ++ [(Float32Array,
            calcTotalPoints (targetW sampling) (targetH sampling)
              (targetFrames sampling) * 3);
           (Float32Array,
            calcTotalPoints (targetW sampling) (targetH sampling)
              (targetFrames sampling));
           (Float32Array,
            calcTotalPoints (targetW sampling) (targetH sampling)
              (targetFrames sampling));
           (Uint8Array,
            targetW sampling * targetH sampling * targetFrames sampling * 4)].
Proof.
  intros Hr0 HW HH HT. unfold startCapture, initLivePoints. rewrite Hr0.
  cbn [negb orb sceneReady hiddenCanvasReady videoReady contextAvailable readyEnv].
  destruct (Z.leb_spec
              (calcTotalPoints (targetW sampling) (targetH sampling)
                 (targetFrames sampling)) 0) as [Hle|_];
    [unfold calcTotalPoints in Hle; nia|].
  cbn. rewrite <- !app_assoc. repeat split; eauto.
Qed.

(** X16. Along a run with positive dimensions the shader always sees the
    current write index ([uWriteIndex] is [writeIndexRef]), the frame
    counter is the number of captured frames, the point cloud stays in
    place, and the status shows the last multiple of 30 frames reached. *)
Theorem run_keeps_in_step
    (sampling : Sampling) (r0 : State) (captured : list (list byte)) :
  0 < targetW sampling -> 0 < targetH sampling -> 0 < targetFrames sampling ->
  capturingRef r0 = false ->
  let r := run sampling readyEnv r0 captured in
  let n := Z.of_nat (length captured) in
  materialRef r = Some (writeIndexRef r)
  /\ frameCountRef r = n
  /\ is_Some (pointsRef r)
  /\ status r = (if n <? 30 then StatusStarted else StatusLive (30 * (n / 30))).
Proof.
  intros HW HH HT Hr0.
  induction captured as [|data captured IH] using rev_ind; intros r n.
  - destruct (startCapture_counters sampling r0 Hr0 HW HH HT)
      as (Hm & _ & Hfc & Hp & Hs & _).
    destruct (startCapture_capturing sampling r0 Hr0 HW HH HT) as [_ Hwi].
    subst r n. unfold run. cbn [foldl length].
    rewrite Hwi. repeat split; assumption.
  - destruct (ringInv_run sampling r0 captured Hr0 HW HH HT) as (cd & Hcap & _).
    destruct (processFrame_counters sampling data _ cd Hcap)
      as (Hm & _ & Hfc & Hp & Ha & Hs).
    destruct IH as (_ & IHfc & IHp & IHs).
    subst r n. rewrite run_snoc.
    rewrite length_app, Nat2Z.inj_add. cbn [length].
    set (m := Z.of_nat (length captured)) in *.
    change (Z.of_nat 1) with 1.
    split; [exact Hm|].
    split; [rewrite Hfc, IHfc; reflexivity|].
    split; [rewrite Hp; exact IHp|].
    rewrite Hs, IHfc, IHs. rewrite rem_nonneg_mod by lia.
    pose proof (Z.div_mod (m + 1) 30 ltac:(lia)) as E1.
    pose proof (Z.mod_pos_bound (m + 1) 30 ltac:(lia)) as B1.
    pose proof (Z.div_mod m 30 ltac:(lia)) as E0.
    pose proof (Z.mod_pos_bound m 30 ltac:(lia)) as B0.
    destruct (Z.eqb_spec ((m + 1) mod 30) 0) as [Hz|Hnz].
    + destruct (Z.ltb_spec (m + 1) 30); [lia|]. f_equal. lia.
    + assert (Hq : (m + 1) / 30 = m / 30) by lia.
      rewrite Hq.
      destruct (Z.ltb_spec m 30), (Z.ltb_spec (m + 1) 30);
        try reflexivity; lia.
Qed.

Lemma run_keeps_in_step_witness :
  let sampling := Examples.smallSampling in
  let r0 := mounted in
  let captured := [Examples.frameA; Examples.frameB; Examples.frameC;
                   Examples.frameA] in
  (0 < targetW sampling /\ 0 < targetH sampling /\ 0 < targetFrames sampling
   /\ capturingRef r0 = false)
  /\ (let r := run sampling readyEnv r0 captured in
      let n := Z.of_nat (length captured) in
      materialRef r = Some (writeIndexRef r)
      /\ frameCountRef r = n
      /\ is_Some (pointsRef r)
      /\ status r = (if n <? 30 then StatusStarted else StatusLive (30 * (n / 30)))).
Proof.
  split; [repeat split; reflexivity|].
  apply (run_keeps_in_step Examples.smallSampling mounted
           [Examples.frameA; Examples.frameB; Examples.frameC; Examples.frameA]);
    reflexivity.
Defined.

Lemma pointsRef_run
    (sampling : Sampling) (r0 : State) (captured : list (list byte)) :
  0 < targetW sampling -> 0 < targetH sampling -> 0 < targetFrames sampling ->
  capturingRef r0 = false ->
  exists geometry,
    pointsRef (run sampling readyEnv r0 captured) = Some geometry.
Proof.
  intros HW HH HT Hr0.
  induction captured as [|data captured IH] using rev_ind.
  - destruct (startCapture_counters sampling r0 Hr0 HW HH HT)
      as (_ & _ & _ & [g Hg] & _).
    exists g. exact Hg.
  - destruct (ringInv_run sampling r0 captured Hr0 HW HH HT) as (cd & Hcap & _).
    destruct (processFrame_counters sampling data _ cd Hcap)
      as (_ & _ & _ & Hp & _).
    destruct IH as [g Hg]. exists g. rewrite run_snoc, Hp. exact Hg.
Qed.

(** ** page.tsx: saving what was captured *)

Lemma slot_lookup (F : Z) (cd : list byte) (s : Z) (k : nat) :
  0 <= F -> 0 <= s -> (k < Z.to_nat F)%nat ->
  slot F cd s !! k = cd !! Z.to_nat (s * F + Z.of_nat k).
Proof.
  intros HF Hs Hk. unfold slot.
  rewrite lookup_take_lt by exact Hk. rewrite lookup_drop. f_equal. nia.
Qed.

Lemma storedFrame_lookup (ppf : Z) (frame : list byte) (p : Z) (j : nat) :
  0 <= p < ppf -> (j < 4)%nat ->
  storedFrame ppf frame !! (Z.to_nat p * 4 + j)%nat
  = [toUint8 (u8get frame (p * 4)); toUint8 (u8get frame (p * 4 + 1));
     toUint8 (u8get frame (p * 4 + 2)); xff] !! j.
Proof.
  intros Hp Hj. unfold storedFrame.
  rewrite lookup_concat_uniform; [|
    apply Forall_fmap, Forall_forall; intros q _; reflexivity | exact Hj].
  now rewrite list_lookup_fmap, lookup_range by exact Hp.
Qed.

(** The byte [j] of pixel [p] of logical frame [f] in a ring: zero while the
    ring is not full that far back, and otherwise the byte stored for the
    frame captured [total - f] steps ago. *)
Lemma ring_byte (sampling : Sampling) (captured : list (list byte))
    (cd : list byte) (w f p : Z) (j : nat) (b : byte) :
  let W := targetW sampling in
  let H := targetH sampling in
  let T := targetFrames sampling in
  let n := Z.of_nat (length captured) in
  0 < W -> 0 < H -> 0 < T ->
  w = n mod T ->
  (forall (k : nat) data,
     captured !! k = Some data -> n - T <= Z.of_nat k ->
     slot (W * H * 4) cd (Z.of_nat k mod T) = storedFrame (W * H) data) ->
  (forall s, n <= s < T ->
     slot (W * H * 4) cd s = replicate (Z.to_nat (W * H * 4)) x00) ->
  0 <= f < T -> 0 <= p < W * H -> (j < 4)%nat ->
  cd !! Z.to_nat ((((w + f) mod T) * (W * H) + p) * 4 + Z.of_nat j) = Some b ->
  (n - T + f < 0 -> b = x00)
  /\ (0 <= n - T + f ->
        exists frame, captured !! Z.to_nat (n - T + f) = Some frame
          /\ Some b = [toUint8 (u8get frame (p * 4));
                       toUint8 (u8get frame (p * 4 + 1));
                       toUint8 (u8get frame (p * 4 + 2)); xff] !! j).
Proof.
  intros W H T n HW HH HT Hw Hticks Hzero Hf Hp Hj Hb.
  set (s := (w + f) mod T) in *.
  assert (Hs : s = (n + f) mod T)
    by (unfold s; rewrite Hw; apply Zplus_mod_idemp_l).
  pose proof (Z.mod_pos_bound (w + f) T HT) as Bs. fold s in Bs.
  assert (Hslot : slot (W * H * 4) cd s !! (Z.to_nat p * 4 + j)%nat = Some b).
  { rewrite slot_lookup by nia. rewrite <- Hb. f_equal. nia. }
  split.
  - intros Hage.
    assert (Es : s = n + f) by (rewrite Hs; apply Z.mod_small; lia).
    rewrite Hzero in Hslot by lia.
    apply lookup_replicate in Hslot. now destruct Hslot.
  - intros Hage.
    destruct (lookup_lt_is_Some_2 captured (Z.to_nat (n - T + f)))
      as [frame Hframe]; [unfold n in *; lia|].
    exists frame. split; [exact Hframe|].
    assert (Es : s = Z.of_nat (Z.to_nat (n - T + f)) mod T).
    { rewrite Hs, Z2Nat.id by lia.
      replace (n + f) with (n - T + f + 1 * T) by lia.
      now rewrite Z.mod_add by lia. }
    rewrite Es, (Hticks _ frame Hframe) in Hslot by lia.
    rewrite storedFrame_lookup in Hslot by assumption. now symmetry.
Qed.



Lemma clamp_range_lemma (value lo hi : Q) :
  (lo <= hi)%Q -> (lo <= clamp value lo hi <= hi)%Q.
Proof.
  intros Hle. unfold clamp.
  destruct (Q.min_spec hi value) as [[H1 E1]|[H1 E1]];
    destruct (Q.max_spec lo (Qmin hi value)) as [[H2 E2]|[H2 E2]];
    rewrite ?E2; rewrite E1 in *; split; lra.
Qed.

Lemma clamp_identity_lemma (value lo hi : Q) :
  (lo <= value <= hi)%Q -> (clamp value lo hi == value)%Q.
Proof.
  intros Hle. unfold clamp.
  destruct (Q.min_spec hi value) as [[H1 E1]|[H1 E1]];
    destruct (Q.max_spec lo (Qmin hi value)) as [[H2 E2]|[H2 E2]];
    rewrite ?E2; rewrite E1 in *; lra.
Qed.

(** ** page.tsx: the slice sliders *)

Import SliceControls.

(** X18. The slice sliders keep a slice well formed: from
    [minAll <= min <= max <= maxAll], any sequence of inputs on the two
    sliders, whatever the values, ends in a slice with the same property;
    an input inside the allowed range is taken as it is. *)
Theorem sliders_keep_slice_ordered
    (extent : Extent) (s : Slice) (events : list SliderEvent) :
  (minAll extent <= sliceMin s)%Q -> (sliceMin s <= sliceMax s)%Q ->
  (sliceMax s <= maxAll extent)%Q ->
  let s' := foldl (onChange extent) s events in
  ((minAll extent <= sliceMin s')%Q /\ (sliceMin s' <= sliceMax s')%Q
   /\ (sliceMax s' <= maxAll extent)%Q)
  /\ (forall value,
        (minAll extent <= value <= sliceMax s')%Q ->
        (sliceMin (onChange extent s' (MinInput value)) == value)%Q)
  /\ (forall value,
        (sliceMin s' <= value <= maxAll extent)%Q ->
        (sliceMax (onChange extent s' (MaxInput value)) == value)%Q).
Proof.
  intros H1 H2 H3.
  assert (Hinv : let s' := foldl (onChange extent) s events in
            (minAll extent <= sliceMin s')%Q /\ (sliceMin s' <= sliceMax s')%Q
            /\ (sliceMax s' <= maxAll extent)%Q).
  { revert s H1 H2 H3. induction events as [|e events IH]; intros s H1 H2 H3.
    - cbn. repeat split; assumption.
    - cbn [foldl]. apply IH; destruct e as [v|v]; cbn [onChange sliceMin sliceMax];
        try assumption.
      + apply (clamp_range_lemma v (minAll extent) (sliceMax s)). lra.
      + apply (clamp_range_lemma v (minAll extent) (sliceMax s)). lra.
      + apply (clamp_range_lemma v (sliceMin s) (maxAll extent)). lra.
      + apply (clamp_range_lemma v (sliceMin s) (maxAll extent)). lra. }
  intros s'. split; [exact Hinv|].
  destruct Hinv as (I1 & I2 & I3). fold s' in I1, I2, I3.
  split; intros value Hv; cbn [onChange sliceMin sliceMax];
    apply clamp_identity_lemma; lra.
Qed.

Lemma sliders_keep_slice_ordered_witness :
  let extent := {| minAll := -(127 # 2); maxAll := 127 # 2 |} in
  let s := {| sliceMin := -(127 # 2); sliceMax := 127 # 2 |} in
  let events := [MinInput 10; MaxInput (-200); MinInput 500; MaxInput 3] in
  ((minAll extent <= sliceMin s)%Q /\ (sliceMin s <= sliceMax s)%Q
   /\ (sliceMax s <= maxAll extent)%Q)
  /\ (let s' := foldl (onChange extent) s events in
      ((minAll extent <= sliceMin s')%Q /\ (sliceMin s' <= sliceMax s')%Q
       /\ (sliceMax s' <= maxAll extent)%Q)
      /\ (forall value,
            (minAll extent <= value <= sliceMax s')%Q ->
            (sliceMin (onChange extent s' (MinInput value)) == value)%Q)
      /\ (forall value,
            (sliceMin s' <= value <= maxAll extent)%Q ->
            (sliceMax (onChange extent s' (MaxInput value)) == value)%Q)).
Proof.
  split; [repeat split; cbn; lra|].
  apply (sliders_keep_slice_ordered
           {| minAll := -(127 # 2); maxAll := 127 # 2 |}
           {| sliceMin := -(127 # 2); sliceMax := 127 # 2 |}
           [MinInput 10; MaxInput (-200); MinInput 500; MaxInput 3]);
    cbn; lra.
Defined.

(** X19. When [spacing] changes, the Z slice is pulled inside the new
    legal range on both sides and a bound that is already inside does not
    move; the slice stays ordered exactly when it overlapped the legal
    range (and that range is not empty). *)
Theorem onSpacing_pulls_inside (zMinBase zMaxBase spacing : Q) (s : Slice) :
  let minLegal := (zMinBase * spacing)%Q in
  let maxLegal := (zMaxBase * spacing)%Q in
  let s' := onSpacing zMinBase zMaxBase spacing s in
  (minLegal <= sliceMin s')%Q /\ (sliceMax s' <= maxLegal)%Q
  /\ ((minLegal <= sliceMin s)%Q -> sliceMin s' = sliceMin s)
  /\ ((sliceMax s <= maxLegal)%Q -> sliceMax s' = sliceMax s)
  /\ ((sliceMin s' <= sliceMax s')%Q
      <-> (sliceMin s <= sliceMax s)%Q /\ (sliceMin s <= maxLegal)%Q
          /\ (minLegal <= sliceMax s)%Q /\ (minLegal <= maxLegal)%Q).
Proof.
  intros minLegal maxLegal s'. unfold s', onSpacing. cbn [sliceMin sliceMax].
  fold minLegal maxLegal.
  destruct (Qlt_le_dec (sliceMin s) minLegal),
    (Qlt_le_dec maxLegal (sliceMax s));
    repeat split; intros; try lra; try reflexivity.
Qed.

(** ** utils/plyExporter.ts: what the exporters read *)

Lemma grid_ext {A} (g1 g2 : Z -> Z -> Z -> A) (fr h w : Z) :
  (forall f y x, g1 f y x = g2 f y x) ->
  Loops.grid fr h w g1 = Loops.grid fr h w g2.
Proof.
  intros E. unfold Loops.grid. f_equal.
  apply list_fmap_ext. intros _ f _. f_equal.
  apply list_fmap_ext. intros _ y _.
  apply list_fmap_ext. intros _ x _. apply E.
Qed.

(** The binary loop nest, for every input, as one fold over the grid. *)
Lemma binaryData_as_fold (float32LE : Q -> list byte) (d : PLYExportData) :
  binaryData float32LE d
  = newBuffer (calcTotalPoints (width d) (height d) (frames d) * BYTES_PER_POINT)
    ≫= fun dataBuffer =>
         foldl (fun st p => st ≫= writePoint float32LE p)
               (Some (dataBuffer, 0))
               (Loops.grid (frames d) (height d) (width d) (pointOf d)).
Proof.
  unfold binaryData. destruct (newBuffer _) as [buf|]; [|reflexivity].
  cbn [mbind option_bind].
  exact (foldl_grid (fun st p => st ≫= writePoint float32LE p)
           (pointOf d) (frames d) (height d) (width d) _).
Qed.

(** X20. The exporters never look at the alpha channel: two buffers that
    agree on every byte but the fourth of each pixel give the same ASCII
    file and the same binary file, for every width, height, frame count and
    write index. *)
Theorem exporters_ignore_alpha
    (numberToString : Q -> string) (float32LE : Q -> list byte)
    (d1 d2 : PLYExportData) :
  width d1 = width d2 -> height d1 = height d2 -> frames d1 = frames d2 ->
  spacing d1 = spacing d2 -> writeIndex d1 = writeIndex d2 ->
  (forall i : nat, Z.of_nat i mod 4 <> 3 -> colorData d1 !! i = colorData d2 !! i) ->
  createPLYDataASCII numberToString d1 = createPLYDataASCII numberToString d2
  /\ createPLYDataBinary float32LE d1 = createPLYDataBinary float32LE d2.
Proof.
  intros Ew Eh Ef Es Ewi Hrgb.
  assert (Hget : forall c j, 0 <= j < 3 ->
            u8get (colorData d1) (c * 4 + j) = u8get (colorData d2) (c * 4 + j)).
  { intros c j Hj. unfold u8get.
    destruct (Z.leb_spec 0 (c * 4 + j)); [|reflexivity].
    apply Hrgb. rewrite Z2Nat.id by lia.
    rewrite Z.add_comm, Z.mod_add by lia. rewrite Z.mod_small; lia. }
  assert (Hpt : forall f y x, pointOf d1 f y x = pointOf d2 f y x).
  { intros f y x. unfold pointOf, calcColorDataIndex.
    rewrite Ew, Eh, Ef, Es, Ewi.
    set (c := calcActualFrameIndex f (writeIndex d2) (frames d2)
              * (width d2 * height d2) + calcPixelIndex x y (width d2)).
    pose proof (Hget c 0 ltac:(lia)) as H0. rewrite Z.add_0_r in H0.
    now rewrite H0, (Hget c 1), (Hget c 2) by lia. }
  split.
  - unfold createPLYDataASCII. rewrite !asciiLines_grid.
    rewrite (grid_ext (pointOf d1) (pointOf d2)) by exact Hpt.
    now rewrite Ew, Eh, Ef.
  - unfold createPLYDataBinary. rewrite !binaryData_as_fold.
    rewrite (grid_ext (pointOf d1) (pointOf d2)) by exact Hpt.
    now rewrite Ew, Eh, Ef.
Qed.

Lemma exporters_ignore_alpha_witness :
  let numberToString := Reference.numberToString in
  let float32LE := Reference.float32LE in
  let d1 := Examples.exampleData in
  let d2 := {| colorData := [x0a; x0b; x0c; x00; x14; x15; x16; x01;
                             x1e; x1f; x20; x02; x28; x29; x2a; x03];
               width := 2; height := 1; frames := 2;
               spacing := 2%Q; writeIndex := 1 |} in
  (forall i : nat, Z.of_nat i mod 4 <> 3 -> colorData d1 !! i = colorData d2 !! i)
  /\ createPLYDataASCII numberToString d1 = createPLYDataASCII numberToString d2
  /\ createPLYDataBinary float32LE d1 = createPLYDataBinary float32LE d2.
Proof.
  assert (Hrgb : forall i : nat, Z.of_nat i mod 4 <> 3 ->
            colorData Examples.exampleData !! i
            = [x0a; x0b; x0c; x00; x14; x15; x16; x01;
               x1e; x1f; x20; x02; x28; x29; x2a; x03] !! i).
  { intros i Hi.
    do 16 (destruct i as [|i];
           [first [reflexivity | exfalso; apply Hi; reflexivity]|]).
    reflexivity. }
  split; [exact Hrgb|].
  apply (exporters_ignore_alpha Reference.numberToString Reference.float32LE
           Examples.exampleData
           {| colorData := [x0a; x0b; x0c; x00; x14; x15; x16; x01;
                            x1e; x1f; x20; x02; x28; x29; x2a; x03];
              width := 2; height := 1; frames := 2;
              spacing := 2%Q; writeIndex := 1 |});
    first [reflexivity | exact Hrgb].
Defined.

(** ** What the shader draws after a run *)

Lemma uniform_run (sampling : Sampling) (r0 : State) (captured : list (list byte)) :
  0 < targetW sampling -> 0 < targetH sampling -> 0 < targetFrames sampling ->
  capturingRef r0 = false ->
  materialRef (run sampling readyEnv r0 captured)
  = Some (writeIndexRef (run sampling readyEnv r0 captured)).
Proof.
  intros HW HH HT Hr0.
  induction captured as [|data captured _] using rev_ind.
  - destruct (startCapture_counters sampling r0 Hr0 HW HH HT) as (Hm & _).
    destruct (startCapture_capturing sampling r0 Hr0 HW HH HT) as [_ Hwi].
    unfold run. cbn [foldl]. now rewrite Hm, Hwi.
  - destruct (ringInv_run sampling r0 captured Hr0 HW HH HT) as (cd & Hcap & _).
    rewrite run_snoc.
    apply (processFrame_counters sampling data _ cd Hcap).
Qed.

Lemma stored_of_adjustedFrame (s w t : Z) :
  0 < t -> 0 <= w < t -> 0 <= s < t ->
  0 <= Shader.adjustedFrame s w t < t
  /\ (w + Shader.adjustedFrame s w t) mod t = s.
Proof.
  intros Ht Hw Hs. unfold Shader.adjustedFrame. rewrite glslMod_mod by lia.
  split; [apply Z.mod_pos_bound; lia|].
  rewrite Zplus_mod_idemp_r.
  replace (w + (s - w + t)) with (s + 1 * t) by lia.
  rewrite Z.mod_add by lia. apply Z.mod_small; lia.
Qed.

Lemma tiled_run_flat (sampling : Sampling) (env : Env) (r0 : State)
    (captured : list (list byte)) :
  0 <= targetW sampling -> 0 <= targetH sampling ->
  TiledPage.run sampling env r0 captured = run sampling env r0 captured.
Proof.
  intros HW HH.
  assert (Hinit : forall r,
            TiledPage.initLivePoints sampling env r = initLivePoints sampling env r).
  { intros r. unfold TiledPage.initLivePoints, initLivePoints. cbv zeta.
    now rewrite (Z.mul_assoc (targetW sampling) (targetH sampling)
                   (targetFrames sampling)). }
  unfold TiledPage.run, run, TiledPage.startCapture, startCapture.
  rewrite Hinit. apply foldl_ext_in. intros r data.
  unfold TiledPage.processFrame, processFrame.
  destruct (capturingRef r); [|reflexivity]. cbn [negb].
  destruct (videoReady env), (ctxRef r), (colorDataRef r) as [cd|],
    (colorTextureRef r), (materialRef r); try reflexivity.
  pose proof (tiled_copy_is_flat data cd (writeIndexRef r)
                (targetW sampling) (targetH sampling) HW HH) as E.
  cbv zeta in E |- *. now rewrite E.
Qed.

Lemma texCoord_centre (width height frames frame pixel : Z) :
  0 < width -> 0 < height -> 0 < frames ->
  let uv := Shader.texCoord frame pixel width height frames in
  (fst uv * inject_Z width == inject_Z (pixel mod width) + (1 # 2))%Q
  /\ (snd uv * inject_Z (height * frames)
      == inject_Z (frame * height + pixel / width) + (1 # 2))%Q.
Proof.
  intros Hw Hh Hfr uv.
  assert (Hnz : forall z, 0 < z -> ~ (inject_Z z == 0)%Q).
  { intros z Hz Ez. change 0%Q with (inject_Z 0) in Ez.
    apply (proj1 (inject_Z_injective _ _)) in Ez. lia. }
  unfold uv, Shader.texCoord. cbn [fst snd].
  rewrite glslMod_mod by lia.
  split; [field; now apply Hnz|].
  rewrite inject_Z_plus, !inject_Z_mult. field. split; now apply Hnz.
Qed.

(** X21. What the shader samples after a run of the page with the
    [(width, height * frames)] texture, for positive dimensions: with the
    uniforms as the page set them ([uTexWidth = targetW],
    [uTexHeight = targetH], [uTotalFrames = targetFrames], [uWriteIndex] as
    the last [processFrame] left it), a point with the attributes
    [(aFrameIndex, aPixelIndex) = (s, p)] samples the centre of the texel in
    column [p mod targetW] and row [s * targetH + p / targetW], and the four
    bytes of that texel in the buffer of the texture are those stored for
    pixel [p] of the frame captured [targetFrames - l] steps ago, where [l]
    is the [adjustedFrame] from which the shader takes the depth of the
    point (zeros where the ring is not filled that far back). *)
Theorem sampled_texels_are_in_capture_order
    (sampling : Sampling) (r0 : State) (captured : list (list byte)) :
  0 < targetW sampling -> 0 < targetH sampling -> 0 < targetFrames sampling ->
  capturingRef r0 = false ->
  let W := targetW sampling in
  let H := targetH sampling in
  let T := targetFrames sampling in
  let n := Z.of_nat (length captured) in
  let r := TiledPage.run sampling readyEnv r0 captured in
  exists (colorData : list byte) (uWriteIndex : Z),
    colorDataRef r = Some colorData
    /\ materialRef r = Some uWriteIndex
    /\ Z.of_nat (length colorData) = W * (H * T) * 4
    /\ forall s p (j : nat), 0 <= s < T -> 0 <= p < W * H -> (j < 4)%nat ->
         let l := Shader.adjustedFrame s uWriteIndex T in
         let uv := Shader.texCoord s p W H T in
         let col := p mod W in
         let row := s * H + p / W in
         (0 <= col < W /\ 0 <= row < H * T
          /\ (fst uv * inject_Z W == inject_Z col + (1 # 2))%Q
          /\ (snd uv * inject_Z (H * T) == inject_Z row + (1 # 2))%Q)
         /\ 0 <= l < T
         /\ exists b : byte,
              colorData !! Z.to_nat ((row * W + col) * 4 + Z.of_nat j) = Some b
              /\ (n - T + l < 0 -> b = x00)
              /\ (0 <= n - T + l ->
                    exists frame,
                      captured !! Z.to_nat (n - T + l) = Some frame
                      /\ Some b = [toUint8 (u8get frame (p * 4));
                                   toUint8 (u8get frame (p * 4 + 1));
                                   toUint8 (u8get frame (p * 4 + 2)); xff] !! j).
Proof.
  intros HW HH HT Hr0 W H T n r.
  unfold r. rewrite tiled_run_flat by lia. clear r.
  set (r := run sampling readyEnv r0 captured).
  destruct (ringInv_run sampling r0 captured Hr0 HW HH HT)
    as (cd & Hcap & Hlen & Hwi & Hticks & Hzero).
  fold W H T n r in Hcap, Hlen, Hwi, Hticks, Hzero.
  pose proof (uniform_run sampling r0 captured HW HH HT Hr0) as Hm. fold r in Hm.
  destruct Hcap as (_ & _ & Hcd & _).
  pose proof (Z.mod_pos_bound n T HT) as Hb.
  exists cd, (writeIndexRef r). split; [exact Hcd|]. split; [exact Hm|].
  split; [lia|].
  intros s p j Hs Hp Hj. cbv zeta.
  set (l := Shader.adjustedFrame s (writeIndexRef r) T).
  set (col := p mod W). set (row := s * H + p / W).
  destruct (stored_of_adjustedFrame s (writeIndexRef r) T HT ltac:(lia) Hs)
    as [Hl Hsl].
  fold l in Hl, Hsl.
  pose proof (Z.div_mod p W ltac:(lia)) as E.
  pose proof (Z.mod_pos_bound p W HW) as B.
  assert (Hq : 0 <= p / W < H).
  { split; [apply Z.div_pos; lia|]. apply Z.div_lt_upper_bound; lia. }
  destruct (texCoord_centre W H T s p HW HH HT) as [Hu Hv].
  split.
  { split; [exact B|]. split; [unfold row; nia|]. split; [exact Hu|exact Hv]. }
  split; [exact Hl|].
  assert (Etexel : (row * W + col) * 4 = (s * (W * H) + p) * 4).
  { unfold row, col. set (q := p / W) in *. set (m := p mod W) in *. nia. }
  assert (Hin : (Z.to_nat ((row * W + col) * 4 + Z.of_nat j) < length cd)%nat)
    by (rewrite Etexel; nia).
  destruct (lookup_lt_is_Some_2 cd _ Hin) as [b Hbyte].
  exists b. split; [exact Hbyte|].
  apply (ring_byte sampling captured cd (writeIndexRef r) l p j b
           HW HH HT Hwi Hticks Hzero Hl Hp Hj).
  fold W H T. rewrite Hsl, <- Etexel. exact Hbyte.
Qed.

Lemma sampled_texels_are_in_capture_order_witness :
  let sampling := Examples.smallSampling in
  let r0 := mounted in
  let captured := [Examples.frameA; Examples.frameB; Examples.frameC;
                   Examples.frameA] in
  (0 < targetW sampling /\ 0 < targetH sampling /\ 0 < targetFrames sampling
   /\ capturingRef r0 = false)
  /\ (let W := targetW sampling in
      let H := targetH sampling in
      let T := targetFrames sampling in
      let n := Z.of_nat (length captured) in
      let r := TiledPage.run sampling readyEnv r0 captured in
      exists (colorData : list byte) (uWriteIndex : Z),
        colorDataRef r = Some colorData
        /\ materialRef r = Some uWriteIndex
        /\ Z.of_nat (length colorData) = W * (H * T) * 4
        /\ forall s p (j : nat), 0 <= s < T -> 0 <= p < W * H -> (j < 4)%nat ->
             let l := Shader.adjustedFrame s uWriteIndex T in
             let uv := Shader.texCoord s p W H T in
             let col := p mod W in
             let row := s * H + p / W in
             (0 <= col < W /\ 0 <= row < H * T
              /\ (fst uv * inject_Z W == inject_Z col + (1 # 2))%Q
              /\ (snd uv * inject_Z (H * T) == inject_Z row + (1 # 2))%Q)
             /\ 0 <= l < T
             /\ exists b : byte,
                  colorData !! Z.to_nat ((row * W + col) * 4 + Z.of_nat j) = Some b
                  /\ (n - T + l < 0 -> b = x00)
                  /\ (0 <= n - T + l ->
                        exists frame,
                          captured !! Z.to_nat (n - T + l) = Some frame
                          /\ Some b = [toUint8 (u8get frame (p * 4));
                                       toUint8 (u8get frame (p * 4 + 1));
                                       toUint8 (u8get frame (p * 4 + 2)); xff] !! j)).
Proof.
  split; [repeat split; reflexivity|].
  apply (sampled_texels_are_in_capture_order Examples.smallSampling mounted
           [Examples.frameA; Examples.frameB; Examples.frameC; Examples.frameA]);
    reflexivity.
Defined.
